(** * huduma_watch: the service monitor of kenya-service-status

    A shallow embedding of [src/huduma_watch.py]: the three-state
    classifier, the bounded per-service history (a [collections.deque]
    with [maxlen]), the probe loop [check_services] with its gauges and
    its alert decision, the persistence boundary ([save_history],
    [load_history]) and the read side of the dashboard.

    Python integers are unbounded, so they are [Z]; [Optional[int]] is
    [option Z]; the module-level dictionaries are [gmap string _]; the
    effects of one tick (history, gauges, messages handed to
    [send_alert]) are threaded through a record, and a Python exception
    is a value of an error monad. *)

From Stdlib Require Import ZArith Lia DecimalString.
From stdpp Require Import base strings list gmap sorting.

Local Open Scope Z_scope.

(** ** Configuration (lines 28-40) *)

Definition SITES : list (string * string) :=
  [ ("KRA iTax", "https://itax.kra.go.ke");
    ("eCitizen", "https://accounts.ecitizen.go.ke");
    ("NTSA TIMS", "https://timsvirl.ntsa.go.ke");
    ("HELB", "https://studentportal.helb.co.ke");
    ("KUCCPS", "https://students.kuccps.net") ].

Definition TIMEOUT_SECONDS : Z := 10.
Definition SLOW_THRESHOLD_MS : Z := 4000.
Definition HISTORY_ENTRIES : nat := 288.

(** ** Classification *)

(** The three strings that [classify] returns: ["OK"], ["SLOW"], ["DOWN"]. *)
Inductive State : Type := OK | SLOW | DOWN.

Definition state_name (s : State) : string :=
  match s with OK => "OK" | SLOW => "SLOW" | DOWN => "DOWN" end.

#[global] Instance State_eq_dec : EqDecision State.
Proof. solve_decision. Defined.

(** [classify] (lines 84-89). *)
Definition classify (code latency : option Z) : State :=
  match code, latency with
  | Some c, Some l =>
      if (c >=? 500) || (l >? SLOW_THRESHOLD_MS) then SLOW else OK
  | _, _ => DOWN
  end.

(** ** Python helpers *)

(** [x or d] on an [Optional[int]]: [None] and [0] are both falsy. *)
Definition py_or (x : option Z) (d : Z) : Z :=
  match x with
  | Some v => if v =? 0 then d else v
  | None => d
  end.

(** [l[-n:]] on a list: the last [n] items, and the whole list when
    [n] is [0] (as [-0] is [0]) or exceeds the length. *)
Definition slice_last {A} (n : nat) (l : list A) : list A :=
  match n with
  | O => l
  | _ => drop (length l - n)%nat l
  end.

(** [d[key] = value] on the items of a dict, which keeps insertion order:
    a name already there keeps its place and takes the new value, a new
    name goes to the end. *)
Fixpoint dict_set {V} (key : string) (value : V) (items : list (string * V))
  : list (string * V) :=
  match items with
  | [] => [(key, value)]
  | (k, v) :: rest =>
      if decide (k = key) then (key, value) :: rest
      else (k, v) :: dict_set key value rest
  end.

(** The items of the dict that [json.load] builds from the name/value
    pairs of a JSON object, read in the order of the text: each name
    once, with the last of its values. *)
Definition dict_of {V} (pairs : list (string * V)) : list (string * V) :=
  foldl (fun items pair => dict_set pair.1 pair.2 items) [] pairs.

(** ** [collections.deque] with a [maxlen] *)

Module Deque.
Section Deque.
Context {A : Type}.

Record t : Type := mk { maxlen : nat; items : list A }.

(** [deque(maxlen=n)] *)
Definition new (n : nat) : t := mk n [].

(** [d.append(x)]: push on the right, then drop the leftmost item
    when the length has passed [maxlen]. *)
Definition append (d : t) (x : A) : t :=
  let xs := items d ++ [x] in
  mk (maxlen d) (if (maxlen d <? length xs)%nat then tail xs else xs).

(** [bool(d)]: a deque is truthy iff it is not empty. *)
Definition truthy (d : t) : bool :=
  match items d with [] => false | _ :: _ => true end.

(** [d[-1]], guarded by the caller against an empty deque. *)
Definition peek_right (d : t) : option A := last (items d).

(** [for x in xs: d.append(x)] *)
Definition extend (d : t) (xs : list A) : t := foldl append d xs.

(** The bound every deque built by [new] and [append] satisfies. *)
Definition bounded (d : t) : Prop := (length (items d) <= maxlen d)%nat.
End Deque.
Arguments t : clear implicits.
End Deque.

(** ** Exceptions *)

Inductive exn : Type :=
| KeyError (key : string)
| TypeError.

Inductive result (A : Type) : Type :=
| Ok (a : A)
| Raise (e : exn).
Arguments Ok {A} a.
Arguments Raise {A} e.

#[global] Instance result_bind : MBind result := fun A B k m =>
  match m with
  | Ok a => k a
  | Raise e => Raise e
  end.

(** [for x in xs: body(x)] over a state, stopping at the first exception. *)
Fixpoint for_each {X S} (body : X -> S -> result S) (xs : list X) (s : S)
  : result S :=
  match xs with
  | [] => Ok s
  | x :: rest => s' ← body x s; for_each body rest s'
  end.

(** ** The monitor *)

Section Monitor.
Context {Timestamp : Type}.

(** One history entry: [(time.time(), code or 0, latency or -1)]. *)
Definition sample : Type := Timestamp * Z * Z.

(** The module-level mutable objects: [history], the two gauges of
    [registry] (one child per [service] label, created by the first
    [labels(...).set(...)]), and the messages handed to [send_alert],
    oldest first. *)
Record world : Type := mkWorld {
  history : gmap string (Deque.t sample);
  g_up : gmap string Z;
  g_latency : gmap string Z;
  alerts : list string;
}.

(** What the outside gives to one pass of [check_services]:
    [measure(url)] (lines 75-82, one network call), [time.time()] read in
    the iteration of a service, and the [strftime] text of [now] read
    when a message for a service is composed. *)
Record env : Type := mkEnv {
  measure : string -> option Z * option Z;
  time_time : string -> Timestamp;
  strftime_now : string -> string;
}.

(** [format(latency/1000, ".1f")] is floating-point formatting and stays
    a parameter of the message text. *)
Variable format_1f : Z -> string.

(** [str(n)] for an integer. *)
Definition str_int (n : Z) : string := NilZero.string_of_int (Z.to_int n).

(** [str(code)] inside the f-string: [None] prints as ["None"]. *)
Definition str_opt_int (x : option Z) : string :=
  match x with
  | Some n => str_int n
  | None => "None"
  end.

(** [history[name]] *)
Definition dict_get {V} (d : gmap string V) (key : string) : result V :=
  match d !! key with
  | Some v => Ok v
  | None => Raise (KeyError key)
  end.

(** [_last_status] (lines 91-95). *)
Definition _last_status (entries : Deque.t sample) : option Z * option Z :=
  if Deque.truthy entries then
    match Deque.peek_right entries with
    | Some (_, code, lat) =>
        (if code =? 0 then None else Some code,
         if lat =? -1 then None else Some lat)
    | None => (None, None)
    end
  else (None, None).

(** [classify] of what [_last_status] reads: the previous state of lines
    118-119, and the state shown by the dashboard (line 204). *)
Definition last_state (entries : Deque.t sample) : State :=
  let '(code, latency) := _last_status entries in classify code latency.

(** [compose_message] (lines 97-106). [latency/1000] raises [TypeError]
    on [None]; nothing else in the function can raise. *)
Definition compose_message (now service : string) (state : State)
  (code latency : option Z) : result string :=
  match state with
  | DOWN =>
      Ok ("‚ùå " +:+ service +:+ " seems DOWN (timeout >"
          +:+ str_int TIMEOUT_SECONDS +:+ "s) ‚Äì " +:+ now)
  | SLOW =>
      match latency with
      | None => Raise TypeError
      | Some l =>
          Ok ("‚ö†Ô∏è " +:+ service +:+ " is *slow* (" +:+ format_1f l
              +:+ "s, HTTP " +:+ str_opt_int code +:+ ") ‚Äì " +:+ now
              +:+ String (Ascii.ascii_of_nat 10) "Hang tight or try off-peak üïí")
      end
  | OK => Ok EmptyString
  end.

(** [send_alert] (lines 108-114): the message goes to the sink; whether
    the client exists or the delivery fails is outside the monitor. *)
Definition send_alert (message : string) (w : world) : world :=
  mkWorld (history w) (g_up w) (g_latency w) (alerts w ++ [message]).

(** [state in {"DOWN", "SLOW"} and state != prev_state] (line 130). *)
Definition alert_due (prev_state state : State) : bool :=
  (bool_decide (state = DOWN) || bool_decide (state = SLOW))
  && negb (bool_decide (state = prev_state)).

(** The entry appended at line 124. *)
Definition encode (ts : Timestamp) (code latency : option Z) : sample :=
  (ts, py_or code 0, py_or latency (-1)).

(** The body of the loop of [check_services] (lines 118-131). *)
Definition check_service (e : env) (site : string * string) (w : world)
  : result world :=
  let '(name, url) := site in
  entries ← dict_get (history w) name;
  let prev_state := last_state entries in
  let '(code, latency) := measure e url in
  let state := classify code latency in
  let h := <[name := Deque.append entries (encode (time_time e name) code latency)]>
             (history w) in
  let up := <[name := if bool_decide (state = OK) then 1 else 0]> (g_up w) in
  let lat := match latency with
             | Some l => <[name := l]> (g_latency w)
             | None => g_latency w
             end in
  let w' := mkWorld h up lat (alerts w) in
  if alert_due prev_state state then
    message ← compose_message (strftime_now e name) name state code latency;
    Ok (send_alert message w')
  else Ok w'.

(** [check_services] (lines 116-131). *)
Definition check_services (e : env) (w : world) : result world :=
  for_each (check_service e) SITES w.

(** Successive passes of the scheduler, one [env] per pass. *)
Definition run_ticks (es : list env) (w : world) : result world :=
  for_each check_services es w.

(** [history] as the module creates it (lines 50-52), and the state of a
    fresh process. *)
Definition init_history : gmap string (Deque.t sample) :=
  list_to_map ((fun site => (site.1, Deque.new HISTORY_ENTRIES)) <$> SITES).

Definition init_world : world := mkWorld init_history ∅ ∅ [].

(** ** Persistence *)

(** An item of a JSON array of the state file, as the loop of lines
    141-142 meets it: a triple of a number and two integers, which
    [for ts, code, lat in ...] unpacks and line 142 stores, or a value
    that does not unpack into three, on which it raises. [history] is
    typed [Deque[Tuple[float, int, int]]] (line 50) and so is [sample]:
    an item of three values that are not a number and two integers is
    not an item of this type. *)
Inductive raw_entry : Type :=
| Triple (ts : Timestamp) (code lat : Z)
| Malformed.

(** The state file: absent; not readable as a JSON object ([json.load] or
    [data.items()] raises, before anything is stored); or an object,
    given by its name/value pairs in the order of the text, each value
    an array. A value that cannot be sliced raises at line 141 with
    nothing appended, which is what the array [[Malformed]] does here. *)
Inductive state_file : Type :=
| NoFile
| Unreadable
| JsonObject (pairs : list (string * list raw_entry)).

(** The sample an array item unpacks to. *)
Definition entry_sample (e : raw_entry) : option sample :=
  match e with
  | Triple ts code lat => Some (ts, code, lat)
  | Malformed => None
  end.

(** The on-disk shape: every item of every array is a triple. *)
Definition well_formed (data : list (string * list raw_entry)) : Prop :=
  Forall (fun item => Forall (fun e => is_Some (entry_sample e)) item.2) data.

(** [save_history] (lines 148-154), when the write succeeds. *)
Definition save_history (h : gmap string (Deque.t sample)) : state_file :=
  JsonObject
    ((fun '(n, d) => (n, (fun '(ts, code, lat) => Triple ts code lat)
                           <$> Deque.items d))
       <$> map_to_list h).

(** The inner loop of [load_history] (lines 141-142): the deque after the
    appends, and whether the loop ran to its end. *)
Fixpoint load_entries (dq : Deque.t sample) (entries : list raw_entry)
  : Deque.t sample * bool :=
  match entries with
  | [] => (dq, true)
  | Triple ts code lat :: rest => load_entries (Deque.append dq (ts, code, lat)) rest
  | Malformed :: _ => (dq, false)
  end.

(** [history.get(name) or deque(maxlen=HISTORY_ENTRIES)] (line 140): the
    stored deque when there is one and it is not empty, a new one
    otherwise. *)
Definition get_or_new (h : gmap string (Deque.t sample)) (name : string)
  : Deque.t sample :=
  match h !! name with
  | Some d => if Deque.truthy d then d else Deque.new HISTORY_ENTRIES
  | None => Deque.new HISTORY_ENTRIES
  end.

(** Whether that deque is the object stored in [history], so that the
    appends of line 142 show in [history] at once. *)
Definition aliased (h : gmap string (Deque.t sample)) (name : string) : bool :=
  match h !! name with
  | Some d => Deque.truthy d
  | None => false
  end.

(** The outer loop (lines 139-143). A new deque is stored only by line
    143; an exception ends the whole load (line 145). *)
Fixpoint load_items (h : gmap string (Deque.t sample))
  (data : list (string * list raw_entry)) : gmap string (Deque.t sample) :=
  match data with
  | [] => h
  | (name, entries) :: rest =>
      let '(dq, finished) :=
        load_entries (get_or_new h name) (slice_last HISTORY_ENTRIES entries) in
      if finished then load_items (<[name := dq]> h) rest
      else if aliased h name then <[name := dq]> h
      else h
  end.

(** [load_history] (lines 133-146): [json.load] makes a dict of the
    pairs of the object, and the loop runs over its items. *)
Definition load_history (file : state_file) (h : gmap string (Deque.t sample))
  : gmap string (Deque.t sample) :=
  match file with
  | NoFile => h
  | Unreadable => h
  | JsonObject pairs => load_items h (dict_of pairs)
  end.

(** ** Dashboard (lines 195-210) *)

Record service_row : Type := mkRow {
  row_name : string;
  row_code : option Z;
  row_latency : option Z;
  row_state : State;
}.

Definition row_of (name : string) (entries : Deque.t sample) : service_row :=
  let '(code, latency) := _last_status entries in
  mkRow name code latency (classify code latency).

(** [sorted(services, key=lambda s: s["name"])] *)
Definition row_le (a b : service_row) : Prop :=
  String.leb (row_name a) (row_name b) = true.

#[global] Instance row_le_dec a b : Decision (row_le a b).
Proof. unfold row_le. solve_decision. Defined.

(** The [services] list that [dashboard] hands to the template. *)
Definition dashboard (h : gmap string (Deque.t sample)) : list service_row :=
  merge_sort row_le ((fun '(name, entries) => row_of name entries) <$> map_to_list h).

(** ** The alert decision along a run of classifications *)

(** The decisions taken when [states] are the successive current
    classifications and each tick's previous one is the current one of
    the tick before ([prev] for the first tick). *)
Fixpoint alert_run (prev : State) (states : list State) : list bool :=
  match states with
  | [] => []
  | s :: rest => alert_due prev s :: alert_run s rest
  end.

(** The history invariant of the running program. *)
Definition history_ok (h : gmap string (Deque.t sample)) : Prop :=
  map_Forall (fun _ d => Deque.maxlen d = HISTORY_ENTRIES /\ Deque.bounded d) h.

End Monitor.

(** ** The probe, the process and what a pass sends *)

Section Process.
Context {Timestamp : Type}.
Variable format_1f : Z -> string.



(** The messages that the iteration of a service hands to [send_alert]
    (lines 130-131), given the entries it found for the service. *)
Definition sent_by (e : @env Timestamp) (site : string * string)
  (entries : Deque.t (@sample Timestamp)) : list string :=
  let '(code, latency) := measure e site.2 in
  let state := classify code latency in
  if alert_due (last_state entries) state then
    match compose_message format_1f (strftime_now e site.1) site.1 state code latency with
    | Ok message => [message]
    | Raise _ => []
    end
  else [].

(** Whether the decision of line 130 holds for a service in a pass that
    starts from [w]. *)
Definition is_due (e : @env Timestamp) (w : @world Timestamp)
  (site : string * string) : bool :=
  match history w !! site.1 with
  | Some entries =>
      alert_due (last_state entries)
        (classify (measure e site.2).1 (measure e site.2).2)
  | None => false
  end.

(** The messages of a pass over [sites] that starts from [w], in the
    order of the loop. *)
Definition pass_messages (e : @env Timestamp) (w : @world Timestamp)
  (sites : list (string * string)) : list string :=
  flat_map (fun site =>
              match history w !! site.1 with
              | Some entries => sent_by e site entries
              | None => []
              end) sites.

(** The probe results whose state survives the entry of line 124: an
    absent value, or a code other than 0 with a latency other than 0
    and -1. *)
Definition state_kept (code latency : option Z) : Prop :=
  code = None \/ latency = None
  \/ (code <> Some 0 /\ latency <> Some 0 /\ latency <> Some (-1)).

(** The gauges hold configured services only, [service_up] is 0 or 1,
    and a service with a latency has a [service_up]. *)
Definition gauges_ok (w : @world Timestamp) : Prop :=
  (forall name v, g_up w !! name = Some v ->
                  name ∈ SITES.*1 /\ (v = 0 \/ v = 1))
  /\ (forall name l, g_latency w !! name = Some l ->
                     name ∈ SITES.*1 /\ is_Some (g_up w !! name)).

(** The start of [__main__] (line 221): the module-level objects after
    [load_history]. *)
Definition startup (file : @state_file Timestamp) : @world Timestamp :=
  mkWorld (load_history file init_history) ∅ ∅ [].

(** The end of [__main__] (line 234): the file that [save_history]
    leaves. *)
Definition shutdown (w : @world Timestamp) : @state_file Timestamp :=
  save_history (history w).

(** The states of the module-level objects between passes, for a
    monitor that only ever reads state files it wrote itself: it starts
    with no file or one it cannot read, runs passes that return, and
    may end with [save_history] and start again. *)
Inductive reachable : @world Timestamp -> Prop :=
| reach_fresh : reachable (startup NoFile)
| reach_unreadable : reachable (startup Unreadable)
| reach_pass e w w' :
    reachable w -> check_services format_1f e w = Ok w' -> reachable w'
| reach_restart w :
    reachable w -> reachable (startup (shutdown w)).

End Process.

(** ** Sample inputs *)

(** A pass in which every probe returns [r]; the clock reads are fixed. *)
Definition probe_all (r : option Z * option Z) : @env Z :=
  mkEnv (fun _ => r) (fun _ => 1700000000) (fun _ => "Nov 14 22:13").

(** The pass in which every service answers 200 after 321 ms, and the
    pass in which every request raises. *)
Definition pass_ok : @env Z := probe_all (Some 200, Some 321).
Definition pass_down : @env Z := probe_all (None, None).

(** A stand-in for the [".1f"] rendering of [latency/1000]. *)
Definition format_tenths (l : Z) : string :=
  str_int (l / 1000) +:+ "." +:+ str_int ((l mod 1000) / 100).

(** The array items of a state file that names a service [SITES] does
    not have, and the file itself. *)
Definition stranger_data : list (string * list (@raw_entry Z)) :=
  [ ("HELB", [Triple 1700000000 200 321]);
    ("Huduma Centre", [Triple 1700000300 0 (-1)]) ].

Definition file_with_stranger : @state_file Z := JsonObject stranger_data.

(** A history in which one service has one sample. *)
Definition history_with_one_sample : gmap string (Deque.t (@sample Z)) :=
  <["HELB" := Deque.append (Deque.new HISTORY_ENTRIES) (1700000000, 200, 321)]>
    init_history.

(** The world of a fresh process after the passes [es]. *)
Definition after_ticks (es : list (@env Z)) : @world Z :=
  match run_ticks format_tenths es init_world with
  | Ok w => w
  | Raise _ => init_world
  end.

(** * Properties *)

(** ** The classifier *)

Lemma classify_absent_code latency : classify None latency = DOWN.
Proof. reflexivity. Qed.

Lemma classify_absent_latency code : classify code None = DOWN.
Proof. by destruct code. Qed.

Lemma classify_present c l :
  classify (Some c) (Some l) = if (c >=? 500) || (l >? 4000) then SLOW else OK.
Proof. reflexivity. Qed.

Lemma slow_test_spec c l :
  (c >=? 500) || (l >? 4000) = true <-> c >= 500 \/ l > 4000.
Proof.
  rewrite orb_true_iff, Z.geb_le, Z.gtb_lt. lia.
Qed.

(** C1. [classify] returns DOWN exactly when the code or the latency is
    absent, SLOW exactly when both are present and the code is at least
    500 or the latency exceeds 4000, and OK in every other case; with the
    four sample values of the specification. *)
Theorem classify_spec :
  (forall C L : option Z,
      (classify C L = DOWN <-> C = None \/ L = None)
      /\ (classify C L = SLOW <->
          exists c l, C = Some c /\ L = Some l /\ (c >= 500 \/ l > 4000))
      /\ (classify C L = OK <->
          ~ (C = None \/ L = None)
          /\ ~ (exists c l, C = Some c /\ L = Some l /\ (c >= 500 \/ l > 4000))))
  /\ classify (Some 503) (Some 100) = SLOW
  /\ classify (Some 200) (Some 5000) = SLOW
  /\ classify (Some 200) (Some 100) = OK
  /\ classify None None = DOWN.
Proof.
  split; [| by repeat split].
  intros [c|] [l|]; rewrite ?classify_absent_latency, ?classify_absent_code.
  - rewrite classify_present.
    pose proof (slow_test_spec c l) as Hs.
    destruct ((c >=? 500) || (l >? 4000)).
    + assert (c >= 500 \/ l > 4000) as Hor by (by apply Hs).
      split; [| split].
      * split; [done | by intros [|]].
      * split; [eauto 6 | done].
      * split; [done |]. intros [_ Hno]. destruct Hno. eauto 6.
    + assert (~ (c >= 500 \/ l > 4000)) as Hnor.
      { intros Hor. apply Hs in Hor. done. }
      split; [| split].
      * split; [done | by intros [|]].
      * split; [done |]. intros (c' & l' & [= <-] & [= <-] & Hor). done.
      * split; [| done]. intros _. split; [by intros [|] |].
        intros (c' & l' & [= <-] & [= <-] & Hor). done.
  - split; [| split].
    + split; eauto.
    + split; [done | by intros (? & ? & _ & ? & _)].
    + split; [done |]. intros [Hno _]. destruct Hno. eauto.
  - split; [| split].
    + split; eauto.
    + split; [done | by intros (? & ? & ? & _)].
    + split; [done |]. intros [Hno _]. destruct Hno. eauto.
  - split; [| split].
    + split; eauto.
    + split; [done | by intros (? & ? & ? & _)].
    + split; [done |]. intros [Hno _]. destruct Hno. eauto.
Qed.

(** ** The bounded deque *)

Section DequeFacts.
Context {A : Type}.
Implicit Types (d : Deque.t A) (x : A) (xs : list A).

Lemma maxlen_append d x : Deque.maxlen (Deque.append d x) = Deque.maxlen d.
Proof. reflexivity. Qed.

Lemma items_append d x :
  Deque.bounded d ->
  Deque.items (Deque.append d x)
  = drop (length (Deque.items d ++ [x]) - Deque.maxlen d)%nat (Deque.items d ++ [x]).
Proof.
  unfold Deque.bounded, Deque.append. simpl. intros Hb.
  rewrite length_app. simpl.
  destruct (Nat.ltb_spec (Deque.maxlen d) (length (Deque.items d) + 1)) as [Hlt|Hge].
  - replace (length (Deque.items d) + 1 - Deque.maxlen d)%nat with 1%nat by lia.
    by destruct (Deque.items d ++ [x]).
  - by replace (length (Deque.items d) + 1 - Deque.maxlen d)%nat with 0%nat by lia.
Qed.

Lemma append_bounded d x : Deque.bounded d -> Deque.bounded (Deque.append d x).
Proof.
  intros Hb. unfold Deque.bounded. rewrite items_append by done.
  rewrite maxlen_append, length_drop, length_app. unfold Deque.bounded in Hb.
  simpl. lia.
Qed.

(** A full deque loses its leftmost item to make room. *)
Lemma items_append_full d x :
  (0 < Deque.maxlen d)%nat ->
  length (Deque.items d) = Deque.maxlen d ->
  Deque.items (Deque.append d x) = tail (Deque.items d) ++ [x].
Proof.
  intros Hpos Hfull. unfold Deque.append. simpl.
  rewrite length_app. simpl.
  destruct (Nat.ltb_spec (Deque.maxlen d) (length (Deque.items d) + 1)) as [_|Hge];
    [| lia].
  destruct (Deque.items d); simpl in *; [lia | done].
Qed.

Lemma items_append_room d x :
  (length (Deque.items d) < Deque.maxlen d)%nat ->
  Deque.items (Deque.append d x) = Deque.items d ++ [x].
Proof.
  intros Hroom. unfold Deque.append. simpl.
  rewrite length_app. simpl.
  destruct (Nat.ltb_spec (Deque.maxlen d) (length (Deque.items d) + 1)) as [Hlt|_];
    [lia | done].
Qed.

Lemma new_bounded n : Deque.bounded (@Deque.new A n).
Proof. unfold Deque.bounded. simpl. lia. Qed.

Lemma maxlen_extend xs : forall d, Deque.maxlen (Deque.extend d xs) = Deque.maxlen d.
Proof.
  induction xs as [|x xs IH]; intros d; [done |].
  unfold Deque.extend in *. simpl. by rewrite IH.
Qed.

Lemma extend_bounded xs : forall d, Deque.bounded d -> Deque.bounded (Deque.extend d xs).
Proof.
  induction xs as [|x xs IH]; intros d Hb; [done |].
  unfold Deque.extend in *. simpl. by apply IH, append_bounded.
Qed.

(** After any appends a bounded deque holds the last [maxlen] items of
    everything it was given, in the order given. *)
Lemma items_extend xs : forall d,
  Deque.bounded d ->
  Deque.items (Deque.extend d xs)
  = drop (length (Deque.items d ++ xs) - Deque.maxlen d)%nat (Deque.items d ++ xs).
Proof.
  induction xs as [|x xs IH]; intros d Hb.
  - unfold Deque.extend, Deque.bounded in *. simpl. rewrite app_nil_r.
    by replace (length (Deque.items d) - Deque.maxlen d)%nat with 0%nat by lia.
  - change (Deque.extend d (x :: xs)) with (Deque.extend (Deque.append d x) xs).
    rewrite IH by (by apply append_bounded).
    rewrite maxlen_append, items_append by done.
    set (l1 := Deque.items d ++ [x]).
    set (m := Deque.maxlen d).
    replace (Deque.items d ++ x :: xs) with (l1 ++ xs)
      by (unfold l1; by rewrite <- app_assoc).
    rewrite <- (drop_app_le l1 xs) by lia.
    rewrite drop_drop. f_equal.
    rewrite length_drop, !length_app. lia.
Qed.

Lemma items_extend_new n xs :
  Deque.items (Deque.extend (Deque.new n) xs) = drop (length xs - n)%nat xs.
Proof. by rewrite items_extend by apply new_bounded. Qed.

(** With room for at least one item, the item just appended is the
    rightmost one. *)
Lemma peek_right_append d x :
  (0 < Deque.maxlen d)%nat -> Deque.peek_right (Deque.append d x) = Some x.
Proof.
  unfold Deque.peek_right, Deque.append. simpl. intros Hpos.
  destruct (Nat.ltb_spec (Deque.maxlen d) (length (Deque.items d ++ [x]))) as [Hlt|Hge].
  - rewrite length_app in Hlt. simpl in Hlt.
    destruct (Deque.items d) as [|y ys]; simpl in *; [lia |].
    apply last_snoc.
  - apply last_snoc.
Qed.

Lemma truthy_append d x :
  (0 < Deque.maxlen d)%nat -> Deque.truthy (Deque.append d x) = true.
Proof.
  intros Hpos. pose proof (peek_right_append d x Hpos) as Hp.
  unfold Deque.peek_right, Deque.truthy in *.
  by destruct (Deque.items (Deque.append d x)).
Qed.

Lemma slice_last_short n xs : (length xs <= n)%nat -> slice_last n xs = xs.
Proof.
  intros Hle. destruct n as [|n]; [done |]. unfold slice_last.
  by replace (length xs - S n)%nat with 0%nat by lia.
Qed.

Lemma length_slice_last n xs :
  (0 < n)%nat -> (length (slice_last n xs) <= n)%nat.
Proof.
  intros Hpos. destruct n as [|n]; [lia |]. unfold slice_last.
  rewrite length_drop. lia.
Qed.

End DequeFacts.

(** ** The dict of a JSON object *)

Section DictFacts.
Context {V : Type}.
Implicit Types (items pairs : list (string * V)).

Lemma dict_set_fresh key (value : V) items :
  key ∉ items.*1 -> dict_set key value items = items ++ [(key, value)].
Proof.
  induction items as [|[k v] items IH]; intros Hfresh; [done |].
  rewrite fmap_cons in Hfresh. apply not_elem_of_cons in Hfresh as [Hne Hfresh].
  simpl in *. destruct (decide (k = key)) as [->|_]; [done |].
  by rewrite IH.
Qed.

Lemma dict_set_keys key (value : V) items k :
  k ∈ (dict_set key value items).*1 <-> k = key \/ k ∈ items.*1.
Proof.
  induction items as [|[k0 v0] items IH]; simpl.
  - split.
    + intros ->%list_elem_of_singleton. by left.
    + intros [-> | Hin]; [apply list_elem_of_here | by apply elem_of_nil in Hin].
  - destruct (decide (k0 = key)) as [->|Hne]; simpl.
    + rewrite !elem_of_cons. tauto.
    + rewrite !elem_of_cons, IH. tauto.
Qed.

Lemma dict_set_NoDup key (value : V) items :
  NoDup (items.*1) -> NoDup ((dict_set key value items).*1).
Proof.
  induction items as [|[k0 v0] items IH]; intros Hnd; simpl.
  - apply NoDup_singleton.
  - rewrite fmap_cons in Hnd. apply NoDup_cons in Hnd as [Hfresh Hnd]. simpl in Hfresh.
    destruct (decide (k0 = key)) as [->|Hne]; rewrite fmap_cons; simpl.
    + by apply NoDup_cons.
    + apply NoDup_cons. split; [| by apply IH].
      rewrite dict_set_keys. intros [-> | Hin]; done.
Qed.


Lemma dict_fold_keys pairs : forall items k,
  k ∈ (foldl (fun items pair => dict_set pair.1 pair.2 items) items pairs).*1
  <-> k ∈ items.*1 \/ k ∈ pairs.*1.
Proof.
  induction pairs as [|[k0 v0] pairs IH]; intros items k; simpl.
  - rewrite elem_of_nil. tauto.
  - rewrite IH, dict_set_keys, elem_of_cons. tauto.
Qed.

Lemma dict_fold_NoDup pairs : forall items,
  NoDup (items.*1) ->
  NoDup ((foldl (fun items pair => dict_set pair.1 pair.2 items) items pairs).*1).
Proof.
  induction pairs as [|[k0 v0] pairs IH]; intros items Hnd; [done |].
  simpl. by apply IH, dict_set_NoDup.
Qed.


Lemma dict_fold_fresh pairs : forall items,
  NoDup ((items ++ pairs).*1) ->
  foldl (fun items pair => dict_set pair.1 pair.2 items) items pairs = items ++ pairs.
Proof.
  induction pairs as [|[k0 v0] pairs IH]; intros items Hnd.
  - by rewrite app_nil_r.
  - simpl. rewrite dict_set_fresh.
    + rewrite IH; rewrite <- app_assoc; done.
    + rewrite fmap_app, fmap_cons in Hnd. simpl in Hnd.
      apply NoDup_app in Hnd as (_ & Hdisj & _).
      intros Hin. apply (Hdisj _ Hin). left.
Qed.

(** The names of the dict are the names of the object, each once. *)
Lemma dict_of_keys pairs k : k ∈ (dict_of pairs).*1 <-> k ∈ pairs.*1.
Proof.
  unfold dict_of. rewrite dict_fold_keys. rewrite fmap_nil, elem_of_nil. tauto.
Qed.

Lemma dict_of_NoDup pairs : NoDup ((dict_of pairs).*1).
Proof. apply dict_fold_NoDup. constructor. Qed.


(** An object that names nothing twice is its own dict. *)
Lemma dict_of_distinct pairs : NoDup (pairs.*1) -> dict_of pairs = pairs.
Proof. intros Hnd. unfold dict_of. by rewrite dict_fold_fresh. Qed.

End DictFacts.

(** ** One iteration of the probe loop *)

Section TickFacts.
Context {Timestamp : Type}.
Variable format_1f : Z -> string.
Implicit Types (w : @world Timestamp) (e : @env Timestamp).
Implicit Types (d entries : Deque.t (@sample Timestamp)).

Lemma classify_slow_present code latency :
  classify code latency = SLOW ->
  exists c l, code = Some c /\ latency = Some l.
Proof. destruct code, latency; try done. eauto. Qed.

(** On the state that [classify] computed, [compose_message] returns. *)
Lemma compose_message_classify now service code latency :
  exists message,
    compose_message format_1f now service (classify code latency) code latency
    = Ok message.
Proof.
  destruct (classify code latency) eqn:Hst; simpl; eauto.
  apply classify_slow_present in Hst as (c & l & -> & ->). eauto.
Qed.

Lemma alert_due_spec prev cur :
  alert_due prev cur = true <-> (cur = SLOW \/ cur = DOWN) /\ cur <> prev.
Proof. destruct prev, cur; cbv; intuition congruence. Qed.

(** What one iteration does to each module-level object. *)
Lemma check_service_effect e name url w entries :
  history w !! name = Some entries ->
  let code := (measure e url).1 in
  let latency := (measure e url).2 in
  let state := classify code latency in
  exists w',
    check_service format_1f e (name, url) w = Ok w'
    /\ history w'
       = <[name := Deque.append entries (encode (time_time e name) code latency)]>
           (history w)
    /\ g_up w' = <[name := if bool_decide (state = OK) then 1 else 0]> (g_up w)
    /\ g_latency w'
       = match latency with
         | Some l => <[name := l]> (g_latency w)
         | None => g_latency w
         end
    /\ (if alert_due (last_state entries) state
        then exists message, alerts w' = alerts w ++ [message]
        else alerts w' = alerts w).
Proof.
  intros Hget. simpl. unfold check_service, dict_get. rewrite Hget. simpl.
  destruct (measure e url) as [code latency]. simpl.
  destruct (alert_due (last_state entries) (classify code latency)).
  - destruct (compose_message_classify (strftime_now e name) name code latency)
      as [message ->]. simpl. eauto 10.
  - eauto 10.
Qed.

Lemma check_service_missing e name url w :
  history w !! name = None ->
  check_service format_1f e (name, url) w = Raise (KeyError name).
Proof. intros Hget. unfold check_service, dict_get. by rewrite Hget. Qed.

(** An iteration never raises [TypeError]. *)
Lemma check_service_no_TypeError e site w :
  check_service format_1f e site w <> Raise TypeError.
Proof.
  destruct site as [name url].
  destruct (history w !! name) as [entries|] eqn:Hget.
  - destruct (check_service_effect e name url w entries Hget) as (w' & -> & _). done.
  - by rewrite check_service_missing.
Qed.

(** An iteration touches the entries of its own service only, and only
    adds to the messages sent. *)
Lemma check_service_frame e name url w w' :
  check_service format_1f e (name, url) w = Ok w' ->
  (forall k, k <> name ->
     history w' !! k = history w !! k
     /\ g_up w' !! k = g_up w !! k
     /\ g_latency w' !! k = g_latency w !! k)
  /\ (exists sent, alerts w' = alerts w ++ sent)
  /\ dom (history w') = dom (history w).
Proof.
  intros Hrun.
  destruct (history w !! name) as [entries|] eqn:Hget;
    [| by rewrite check_service_missing in Hrun].
  destruct (check_service_effect e name url w entries Hget)
    as (w0 & Hrun0 & Hh & Hup & Hlat & Hal).
  rewrite Hrun in Hrun0. injection Hrun0 as <-.
  split; [| split].
  - intros k Hk. rewrite Hh, Hup, Hlat.
    rewrite !lookup_insert_ne by done.
    split; [done | split; [done |]].
    destruct ((measure e url).2); [by rewrite lookup_insert_ne | done].
  - destruct (alert_due _ _).
    + destruct Hal as [message ->]. eauto.
    + exists []. by rewrite app_nil_r.
  - rewrite Hh. apply dom_insert_lookup_L. by rewrite Hget.
Qed.

(** [for_each] runs the body on the head and goes on from its result. *)
Lemma for_each_cons_Ok {X S} (body : X -> S -> result S) x xs (s s' : S) :
  for_each body (x :: xs) s = Ok s' <->
  exists s1, body x s = Ok s1 /\ for_each body xs s1 = Ok s'.
Proof.
  simpl. destruct (body x s) as [s0|err]; simpl.
  - split; [eauto |]. by intros (s1 & [= <-] & ?).
  - split; [done | by intros (? & ? & _)].
Qed.

(** [for_each] splits at any item of the list. *)
Lemma for_each_app {X S} (body : X -> S -> result S) xs ys (s s' : S) :
  for_each body (xs ++ ys) s = Ok s' <->
  exists s1, for_each body xs s = Ok s1 /\ for_each body ys s1 = Ok s'.
Proof.
  revert s. induction xs as [|x xs IH]; intros s.
  - simpl. split; [eauto |]. by intros (s1 & [= <-] & ?).
  - rewrite <- app_comm_cons, for_each_cons_Ok. split.
    + intros (s1 & Hx & (s2 & ? & ?)%IH).
      exists s2. split; [| done]. apply for_each_cons_Ok. eauto.
    + intros (s2 & (s1 & Hx & ?)%for_each_cons_Ok & ?).
      exists s1. split; [done |]. apply IH. eauto.
Qed.

(** A run of iterations over services other than [k] leaves the entries
    of [k] alone. *)
Lemma for_each_frame e sites : forall w w' k,
  k ∉ sites.*1 ->
  for_each (check_service format_1f e) sites w = Ok w' ->
  history w' !! k = history w !! k
  /\ g_up w' !! k = g_up w !! k
  /\ g_latency w' !! k = g_latency w !! k.
Proof.
  induction sites as [|[name url] sites IH]; intros w w' k Hk Hrun.
  - by injection Hrun as <-.
  - rewrite fmap_cons in Hk. apply not_elem_of_cons in Hk as [Hne Hk].
    apply for_each_cons_Ok in Hrun as (w1 & Hstep & Hrun).
    destruct (check_service_frame e name url w w1 Hstep) as (Hfr & _ & _).
    destruct (Hfr k Hne) as (E1 & E2 & E3).
    destruct (IH _ _ _ Hk Hrun) as (F1 & F2 & F3).
    by rewrite F1, F2, F3.
Qed.

Lemma for_each_alerts e sites : forall w w',
  for_each (check_service format_1f e) sites w = Ok w' ->
  exists sent, alerts w' = alerts w ++ sent.
Proof.
  induction sites as [|[name url] sites IH]; intros w w' Hrun.
  - injection Hrun as <-. exists []. by rewrite app_nil_r.
  - apply for_each_cons_Ok in Hrun as (w1 & Hstep & Hrun).
    destruct (check_service_frame e name url w w1 Hstep) as (_ & [s1 Hs1] & _).
    destruct (IH _ _ Hrun) as [s2 Hs2].
    exists (s1 ++ s2). by rewrite Hs2, Hs1, app_assoc.
Qed.

(** The loop runs to its end when [history] has every service it visits. *)
Lemma for_each_total e sites : forall w,
  (forall name, name ∈ sites.*1 -> name ∈ dom (history w)) ->
  exists w', for_each (check_service format_1f e) sites w = Ok w'
             /\ dom (history w') = dom (history w).
Proof.
  induction sites as [|[name url] sites IH]; intros w Hdom.
  - simpl. eauto.
  - assert (name ∈ dom (history w)) as [entries Hget]%elem_of_dom
        by (apply Hdom; rewrite fmap_cons; left).
    destruct (check_service_effect e name url w entries Hget) as (w1 & Hstep & _).
    destruct (check_service_frame e name url w w1 Hstep) as (_ & _ & Hd).
    destruct (IH w1) as (w' & Hrun & Hd').
    { intros k Hk. rewrite Hd. apply Hdom. rewrite fmap_cons. by right. }
    exists w'. split; [| congruence].
    apply for_each_cons_Ok. eauto.
Qed.

(** A pass returns when [history] has every configured service, as it
    has from the start of the process on. *)
Lemma check_services_returns e w :
  (forall name, name ∈ SITES.*1 -> name ∈ dom (history w)) ->
  exists w', check_services format_1f e w = Ok w'
             /\ dom (history w') = dom (history w).
Proof. apply for_each_total. Qed.

Lemma SITES_names_NoDup : NoDup (SITES.*1).
Proof. apply (bool_decide_unpack (NoDup (SITES.*1))). by vm_compute. Qed.

(** Inside [check_services], the iteration of a configured service
    starts from a world that still has the entries the pass started
    with. *)
Lemma check_services_iteration e w w' name url :
  (name, url) ∈ SITES ->
  check_services format_1f e w = Ok w' ->
  exists before after w1 w2,
    SITES = before ++ (name, url) :: after
    /\ for_each (check_service format_1f e) before w = Ok w1
    /\ check_service format_1f e (name, url) w1 = Ok w2
    /\ for_each (check_service format_1f e) after w2 = Ok w'
    /\ (name ∉ before.*1) /\ (name ∉ after.*1)
    /\ history w1 !! name = history w !! name
    /\ g_up w1 !! name = g_up w !! name
    /\ g_latency w1 !! name = g_latency w !! name
    /\ history w' !! name = history w2 !! name
    /\ g_up w' !! name = g_up w2 !! name
    /\ g_latency w' !! name = g_latency w2 !! name.
Proof.
  intros Hin Hrun.
  apply list_elem_of_split in Hin as (before & after & Heq).
  unfold check_services in Hrun.
  pose proof SITES_names_NoDup as Hnd.
  rewrite Heq in Hrun, Hnd.
  apply for_each_app in Hrun as (w1 & Hrun1 & Hrun2).
  apply for_each_cons_Ok in Hrun2 as (w2 & Hstep & Hrun2).
  rewrite fmap_app, fmap_cons in Hnd. simpl in Hnd.
  apply NoDup_app in Hnd as (_ & Hdisj & Hnd2).
  apply NoDup_cons in Hnd2 as [Hnotin _].
  assert (name ∉ before.*1) as Hnb.
  { intros Hb. apply (Hdisj _ Hb). left. }
  destruct (for_each_frame e before w w1 name Hnb Hrun1) as (? & ? & ?).
  destruct (for_each_frame e after w2 w' name Hnotin Hrun2) as (? & ? & ?).
  exists before, after, w1, w2. repeat split; done.
Qed.

Lemma init_history_lookup name :
  name ∈ SITES.*1 ->
  @init_history Timestamp !! name = Some (Deque.new HISTORY_ENTRIES).
Proof.
  intros Hin. unfold SITES in Hin. simpl in Hin.
  repeat (apply elem_of_cons in Hin as [->|Hin]; [by vm_compute |]).
  by apply elem_of_nil in Hin.
Qed.

Lemma init_history_dom name :
  name ∈ dom (@init_history Timestamp) <-> name ∈ SITES.*1.
Proof.
  unfold init_history. rewrite dom_list_to_map_L, elem_of_list_to_set.
  by rewrite <- list_fmap_compose.
Qed.

(** ** Reading the latest entry *)

Lemma last_status_empty d : Deque.items d = [] -> _last_status d = (None, None).
Proof. intros Hd. unfold _last_status, Deque.truthy. by rewrite Hd. Qed.

Lemma last_state_empty d : Deque.items d = [] -> last_state d = DOWN.
Proof. intros Hd. unfold last_state. by rewrite last_status_empty. Qed.

(** What [_last_status] reads right after the append of line 124. *)
Lemma last_status_append d ts code latency :
  (0 < Deque.maxlen d)%nat ->
  _last_status (Deque.append d (encode ts code latency))
  = (if py_or code 0 =? 0 then None else Some (py_or code 0),
     if py_or latency (-1) =? -1 then None else Some (py_or latency (-1))).
Proof.
  intros Hpos. unfold _last_status.
  by rewrite truthy_append, peek_right_append by done.
Qed.

(** The values that the entry keeps: any code but 0, any latency but 0
    and -1, and the absent ones. *)
Lemma last_status_append_faithful d ts code latency :
  (0 < Deque.maxlen d)%nat ->
  code <> Some 0 -> latency <> Some 0 -> latency <> Some (-1) ->
  _last_status (Deque.append d (encode ts code latency)) = (code, latency).
Proof.
  intros Hpos Hc Hl0 Hl1. rewrite last_status_append by done.
  f_equal.
  - destruct code as [c|]; simpl; [| done].
    destruct (Z.eqb_spec c 0) as [->|Hne]; [done |].
    by destruct (Z.eqb_spec c 0).
  - destruct latency as [l|]; simpl; [| done].
    destruct (Z.eqb_spec l 0) as [->|Hne]; [done |].
    destruct (Z.eqb_spec l (-1)) as [->|Hne1]; done.
Qed.

End TickFacts.

(** ** The history invariant and the persistence boundary *)

Section PersistenceFacts.
Context {Timestamp : Type}.
Variable format_1f : Z -> string.
Implicit Types (w : @world Timestamp) (e : @env Timestamp).
Implicit Types (d dq : Deque.t (@sample Timestamp)).
Implicit Types (h : gmap string (Deque.t (@sample Timestamp))).
Implicit Types (data : list (string * list (@raw_entry Timestamp))).

Lemma init_history_ok : history_ok (@init_history Timestamp).
Proof.
  intros name d Hget.
  assert (name ∈ SITES.*1) as Hin.
  { apply (init_history_dom (Timestamp:=Timestamp)). by apply elem_of_dom_2 in Hget. }
  rewrite init_history_lookup in Hget by done. injection Hget as <-.
  split; [done | apply new_bounded].
Qed.

Lemma check_service_ok e site w w' :
  history_ok (history w) ->
  check_service format_1f e site w = Ok w' ->
  history_ok (history w').
Proof.
  destruct site as [name url]. intros Hok Hrun.
  destruct (history w !! name) as [entries|] eqn:Hget;
    [| by rewrite check_service_missing in Hrun].
  destruct (check_service_effect format_1f e name url w entries Hget)
    as (w0 & Hrun0 & Hh & _).
  rewrite Hrun in Hrun0. injection Hrun0 as <-. rewrite Hh.
  destruct (Hok name entries Hget) as [Hmax Hb].
  apply map_Forall_insert_2; [| done].
  split; [by rewrite maxlen_append | by apply append_bounded].
Qed.

Lemma check_services_ok e w w' :
  history_ok (history w) ->
  check_services format_1f e w = Ok w' ->
  history_ok (history w').
Proof.
  unfold check_services. generalize SITES. intros sites. revert w.
  induction sites as [|site sites IH]; intros w Hok Hrun.
  - by injection Hrun as <-.
  - apply for_each_cons_Ok in Hrun as (w1 & Hstep & Hrun).
    eapply IH; [| done]. by eapply check_service_ok.
Qed.

Lemma load_entries_maxlen entries : forall dq,
  Deque.maxlen (load_entries dq entries).1 = Deque.maxlen dq.
Proof.
  induction entries as [|[ts code lat|] entries IH]; intros dq; simpl; [done | | done].
  by rewrite IH.
Qed.

Lemma load_entries_bounded entries : forall dq,
  Deque.bounded dq -> Deque.bounded (load_entries dq entries).1.
Proof.
  induction entries as [|[ts code lat|] entries IH]; intros dq Hb; simpl; [done | | done].
  by apply IH, append_bounded.
Qed.

(** Over triples the inner loop is [extend] and runs to its end. *)
Lemma load_entries_well_formed entries : forall dq,
  Forall (fun x => is_Some (entry_sample x)) entries ->
  load_entries dq entries = (Deque.extend dq (omap entry_sample entries), true).
Proof.
  induction entries as [|[ts code lat|] entries IH]; intros dq Hwf; simpl; [done | |].
  - apply Forall_cons in Hwf as [_ Hwf]. by rewrite IH.
  - apply Forall_cons in Hwf as [[? [=]] _].
Qed.

Lemma get_or_new_ok h name :
  history_ok h ->
  Deque.maxlen (get_or_new h name) = HISTORY_ENTRIES
  /\ Deque.bounded (get_or_new h name).
Proof.
  intros Hok. unfold get_or_new.
  destruct (h !! name) as [d|] eqn:Hget; [| split; [done | apply new_bounded]].
  destruct (Deque.truthy d); [by apply (Hok name) | split; [done | apply new_bounded]].
Qed.

Lemma Forall_slice_last {A} (P : A -> Prop) n (l : list A) :
  Forall P l -> Forall P (slice_last n l).
Proof. intros Hl. destruct n; [done | by apply Forall_drop]. Qed.

Lemma load_items_cons h name entries data :
  load_items h ((name, entries) :: data)
  = let '(dq, finished) :=
      load_entries (get_or_new h name) (slice_last HISTORY_ENTRIES entries) in
    if finished then load_items (<[name := dq]> h) data
    else if aliased h name then <[name := dq]> h
    else h.
Proof. reflexivity. Qed.

Lemma load_items_ok data : forall h, history_ok h -> history_ok (load_items h data).
Proof.
  induction data as [|[name entries] data IH]; intros h Hok; [done |].
  rewrite load_items_cons.
  destruct (get_or_new_ok h name Hok) as [Hmax Hb].
  pose proof (load_entries_maxlen (slice_last HISTORY_ENTRIES entries)
                (get_or_new h name)) as Hm.
  pose proof (load_entries_bounded (slice_last HISTORY_ENTRIES entries)
                (get_or_new h name) Hb) as Hbd.
  destruct (load_entries _ _) as [dq finished]. simpl in Hm, Hbd.
  assert (history_ok (<[name := dq]> h)) as Hok'.
  { apply map_Forall_insert_2; [| done]. split; [congruence | done]. }
  destruct finished; [by apply IH |].
  by destruct (aliased h name).
Qed.

Lemma load_history_ok file h : history_ok h -> history_ok (load_history file h).
Proof. destruct file; unfold load_history; [done | done | apply load_items_ok]. Qed.

(** Loading never removes a name. *)
Lemma load_items_dom_mono data : forall h, dom h ⊆ dom (load_items h data).
Proof.
  induction data as [|[name entries] data IH]; intros h; [done |].
  rewrite load_items_cons.
  destruct (load_entries _ _) as [dq finished].
  destruct finished.
  - etrans; [apply dom_insert_subseteq | apply IH].
  - destruct (aliased h name); [apply dom_insert_subseteq | done].
Qed.

(** Names that the file does not have keep their entry. *)
Lemma load_items_other data : forall h k,
  k ∉ data.*1 -> load_items h data !! k = h !! k.
Proof.
  induction data as [|[name entries] data IH]; intros h k Hk; [done |].
  rewrite load_items_cons.
  rewrite fmap_cons in Hk. apply not_elem_of_cons in Hk as [Hne Hk]. simpl in Hne.
  destruct (load_entries _ _) as [dq finished].
  destruct finished.
  - rewrite IH by done. by rewrite lookup_insert_ne.
  - destruct (aliased h name); [by rewrite lookup_insert_ne | done].
Qed.


(** What a file of the on-disk shape leaves under each of its names. *)
Lemma load_items_lookup data : forall h name entries,
  well_formed data -> NoDup (data.*1) -> (name, entries) ∈ data ->
  load_items h data !! name
  = Some (Deque.extend (get_or_new h name)
            (omap entry_sample (slice_last HISTORY_ENTRIES entries))).
Proof.
  induction data as [|[n es] data IH]; intros h name entries Hwf Hnd Hin.
  - by apply elem_of_nil in Hin.
  - apply Forall_cons in Hwf as [Hwf1 Hwf]. simpl in Hwf1.
    rewrite fmap_cons in Hnd. apply NoDup_cons in Hnd as [Hfresh Hnd]. simpl in Hfresh.
    rewrite load_items_cons, load_entries_well_formed
      by (by apply Forall_slice_last).
    apply elem_of_cons in Hin as [[= -> ->]|Hin].
    + rewrite load_items_other by done. by rewrite lookup_insert_eq.
    + assert (name <> n) as Hne.
      { intros ->. apply Hfresh. apply list_elem_of_fmap. by exists (n, entries). }
      rewrite (IH _ name entries) by done.
      unfold get_or_new. by rewrite lookup_insert_ne.
Qed.

(** Over well-formed items the outer loop goes on with what follows. *)
Lemma load_items_app (good : list (string * list (@raw_entry Timestamp))) :
  forall h rest,
  well_formed good ->
  load_items h (good ++ rest) = load_items (load_items h good) rest.
Proof.
  induction good as [|[name array] good IH]; intros h rest Hwf; [done |].
  apply Forall_cons in Hwf as [Hwf1 Hwf]. simpl in Hwf1.
  rewrite <- app_comm_cons, !load_items_cons.
  rewrite load_entries_well_formed by (by apply Forall_slice_last).
  by apply IH.
Qed.

Lemma load_entries_malformed (array : list (@raw_entry Timestamp)) : forall dq,
  Exists (fun x => entry_sample x = None) array ->
  (load_entries dq array).2 = false.
Proof.
  induction array as [|[ts code lat|] array IH]; intros dq Hex; simpl.
  - by apply Exists_nil in Hex.
  - apply Exists_cons in Hex as [Hhead | Htail]; [done | by apply IH].
  - done.
Qed.

(** The loop ends at an array with an item that does not unpack among
    its last [HISTORY_ENTRIES]. *)
Lemma load_items_stops h (good : list (string * list (@raw_entry Timestamp)))
  name array rest :
  well_formed good ->
  Exists (fun x => entry_sample x = None) (slice_last HISTORY_ENTRIES array) ->
  load_items h (good ++ (name, array) :: rest)
  = load_items h (good ++ [(name, array)])
  /\ dom (load_items h (good ++ (name, array) :: rest)) = dom (load_items h good)
  /\ (aliased (load_items h good) name = false ->
      load_items h (good ++ (name, array) :: rest) = load_items h good).
Proof.
  intros Hwf Hex. rewrite !load_items_app by done.
  set (h1 := load_items h good).
  rewrite !load_items_cons.
  pose proof (load_entries_malformed (slice_last HISTORY_ENTRIES array)
                (get_or_new h1 name) Hex) as Hstop.
  destruct (load_entries (get_or_new h1 name) (slice_last HISTORY_ENTRIES array))
    as [dq finished]. simpl in Hstop. subst finished.
  split; [done |]. split.
  - unfold aliased. destruct (h1 !! name) as [d|] eqn:Hget; [| done].
    destruct (Deque.truthy d); [| done].
    apply dom_insert_lookup_L. by rewrite Hget.
  - by intros ->.
Qed.

Lemma load_history_JsonObject (pairs : list (string * list (@raw_entry Timestamp))) h :
  NoDup (pairs.*1) -> load_history (JsonObject pairs) h = load_items h pairs.
Proof. intros Hnd. unfold load_history. by rewrite dict_of_distinct. Qed.

Lemma NoDup_names_app (good rest : list (string * list (@raw_entry Timestamp)))
  name array :
  NoDup ((good ++ (name, array) :: rest).*1) ->
  NoDup (good.*1) /\ NoDup ((good ++ [(name, array)]).*1) /\ NoDup (rest.*1)
  /\ name ∉ good.*1.
Proof.
  rewrite !fmap_app, !fmap_cons. simpl. intros Hnd.
  apply NoDup_app in Hnd as (Hg & Hdisj & Hr).
  apply NoDup_cons in Hr as [Hfresh Hr].
  assert (name ∉ good.*1) as Hout.
  { intros Hin. apply (Hdisj _ Hin). left. }
  repeat split; try done.
  apply NoDup_app. repeat split; [done | | apply NoDup_singleton].
  intros k Hk ->%list_elem_of_singleton. done.
Qed.

(** The rows of the dashboard are the names of [history]. *)
Lemma dashboard_names h name :
  name ∈ row_name <$> dashboard h <-> name ∈ dom h.
Proof.
  unfold dashboard. rewrite merge_sort_Permutation, <- list_fmap_compose.
  rewrite elem_of_dom, list_elem_of_fmap. split.
  - intros ([n d] & -> & Hin%elem_of_map_to_list). simpl.
    unfold row_of. destruct (_last_status d). simpl. eauto.
  - intros [d Hget]. exists (name, d). split.
    + simpl. unfold row_of. by destruct (_last_status d).
    + by apply elem_of_map_to_list.
Qed.

End PersistenceFacts.

(** * The claims of the specification *)

Section Claims.
Context {Timestamp : Type}.
Variable format_1f : Z -> string.
Implicit Types (w : @world Timestamp) (e : @env Timestamp).
Implicit Types (d : Deque.t (@sample Timestamp)).
Implicit Types (h : gmap string (Deque.t (@sample Timestamp))).

(** A process: [load_history] at start, then passes of [check_services]. *)
Lemma process_history_ok file es w' :
  run_ticks format_1f es (mkWorld (load_history file init_history) ∅ ∅ []) = Ok w' ->
  history_ok (history w').
Proof.
  assert (forall w, history_ok (history w) ->
                    run_ticks format_1f es w = Ok w' -> history_ok (history w')) as Hgen.
  { unfold run_ticks. induction es as [|e es IH]; intros w Hok Hrun.
    - by injection Hrun as <-.
    - apply for_each_cons_Ok in Hrun as (w1 & Hstep & Hrun).
      eapply IH; [| done]. by eapply check_services_ok. }
  apply Hgen. simpl. apply load_history_ok, init_history_ok.
Qed.

Lemma HISTORY_ENTRIES_pos : (0 < HISTORY_ENTRIES)%nat.
Proof. unfold HISTORY_ENTRIES. lia. Qed.

(** C2. A deque of capacity [n] never holds more than [n] samples
    whatever is appended; it holds the last [n] of them in the order
    given, so that capacity+1 appends leave the capacity samples that
    followed the oldest one, and an append to a full deque drops its
    oldest sample; and in a process ([load_history], then
    passes of [check_services]) the history of every name is a deque of
    capacity [HISTORY_ENTRIES] = 288 within its bound. *)
Theorem history_capacity_fifo :
  (forall (n : nat) (xs : list (@sample Timestamp)),
      (length (Deque.items (Deque.extend (Deque.new n) xs)) <= n)%nat)
  /\ (forall (n : nat) (xs : list (@sample Timestamp)),
         Deque.items (Deque.extend (Deque.new n) xs) = drop (length xs - n)%nat xs)
  /\ (forall (x : @sample Timestamp) xs,
         Deque.items (Deque.extend (Deque.new (length xs)) (x :: xs)) = xs)
  /\ (forall d (x : @sample Timestamp),
         Deque.bounded d ->
         Deque.bounded (Deque.append d x)
         /\ Deque.maxlen (Deque.append d x) = Deque.maxlen d)
  /\ (forall d (x : @sample Timestamp),
         (0 < Deque.maxlen d)%nat ->
         length (Deque.items d) = Deque.maxlen d ->
         Deque.items (Deque.append d x) = tail (Deque.items d) ++ [x])
  /\ HISTORY_ENTRIES = 288%nat
  /\ (forall file es w' name d,
         run_ticks format_1f es (mkWorld (load_history file init_history) ∅ ∅ [])
         = Ok w' ->
         history w' !! name = Some d ->
         Deque.maxlen d = HISTORY_ENTRIES
         /\ (length (Deque.items d) <= HISTORY_ENTRIES)%nat).
Proof.
  split; [| split; [| split; [| split; [| split; [| split]]]]].
  - intros n xs.
    pose proof (extend_bounded xs (Deque.new n) (new_bounded n)) as Hb.
    unfold Deque.bounded in Hb. by rewrite maxlen_extend in Hb.
  - intros n xs. apply items_extend_new.
  - intros x xs. rewrite items_extend_new. simpl.
    by replace (S (length xs) - length xs)%nat with 1%nat by lia.
  - intros d x Hb. split; [by apply append_bounded | apply maxlen_append].
  - intros d x. apply items_append_full.
  - reflexivity.
  - intros file es w' name d Hrun Hget.
    destruct (process_history_ok file es w' Hrun name d Hget) as [Hmax Hb].
    split; [done |]. unfold Deque.bounded in Hb. by rewrite <- Hmax.
Qed.

(** C3. A message is sent exactly when the current state is SLOW or DOWN
    and differs from the previous one: never on a repeated SLOW or DOWN,
    never on a change to OK; an iteration of the probe loop sends one
    message when the decision holds and none otherwise; and the run
    OK, DOWN, DOWN, DOWN, OK, DOWN fires on its second and sixth tick
    only. *)
Theorem alert_edge_triggered :
  (forall prev cur,
      alert_due prev cur = true <-> (cur = SLOW \/ cur = DOWN) /\ cur <> prev)
  /\ alert_due SLOW SLOW = false
  /\ alert_due DOWN DOWN = false
  /\ (forall prev, alert_due prev OK = false)
  /\ (forall prev0,
         alert_run prev0 [OK; DOWN; DOWN; DOWN; OK; DOWN]
         = [false; true; false; false; false; true])
  /\ (forall e w name url entries,
         history w !! name = Some entries ->
         exists w',
           check_service format_1f e (name, url) w = Ok w'
           /\ (if alert_due (last_state entries)
                    (classify (measure e url).1 (measure e url).2)
               then exists message, alerts w' = alerts w ++ [message]
               else alerts w' = alerts w)).
Proof.
  split; [apply alert_due_spec |].
  split; [done |]. split; [done |].
  split; [by intros [] |].
  split; [by intros [] |].
  intros e w name url entries Hget.
  destruct (check_service_effect format_1f e name url w entries Hget)
    as (w' & Hrun & _ & _ & _ & Hal).
  eauto.
Qed.

(** C4. When the history of a configured service is empty and its probe
    fails, the iteration of that service inside [check_services] sends
    nothing; in particular the first pass of a fresh process in which
    every probe fails sends nothing at all. *)
Theorem first_tick_down_is_silent :
  (forall e w w' name url d,
      (name, url) ∈ SITES ->
      history w !! name = Some d ->
      Deque.items d = [] ->
      measure e url = (None, None) ->
      check_services format_1f e w = Ok w' ->
      exists before after w1 w2,
        SITES = before ++ (name, url) :: after
        /\ for_each (check_service format_1f e) before w = Ok w1
        /\ check_service format_1f e (name, url) w1 = Ok w2
        /\ for_each (check_service format_1f e) after w2 = Ok w'
        /\ alerts w2 = alerts w1)
  /\ (forall e,
         (forall url, measure e url = (None, None)) ->
         exists w', check_services format_1f e init_world = Ok w'
                    /\ alerts w' = []).
Proof.
  assert (forall e w name url d,
             history w !! name = Some d -> Deque.items d = [] ->
             measure e url = (None, None) ->
             exists w', check_service format_1f e (name, url) w = Ok w'
                        /\ alerts w' = alerts w) as Hone.
  { intros e w name url d Hget Hd Hm.
    destruct (check_service_effect format_1f e name url w d Hget)
      as (w' & Hrun & _ & _ & _ & Hal).
    rewrite Hm, last_state_empty in Hal by done. simpl in Hal. eauto. }
  split.
  - intros e w w' name url d Hin Hget Hd Hm Hrun.
    destruct (check_services_iteration format_1f e w w' name url Hin Hrun)
      as (before & after & w1 & w2 & Heq & Hb & Hstep & Ha & _ & _ & Hh1 & _).
    rewrite Hget in Hh1.
    destruct (Hone e w1 name url d Hh1 Hd Hm) as (w2' & Hstep' & Hal).
    rewrite Hstep in Hstep'. injection Hstep' as <-.
    exists before, after, w1, w2. by repeat split.
  - intros e Hm. unfold check_services.
    assert (forall sites w,
               NoDup (sites.*1) ->
               (forall n, n ∈ sites.*1 ->
                          exists d, history w !! n = Some d /\ Deque.items d = []) ->
               exists w', for_each (check_service format_1f e) sites w = Ok w'
                          /\ alerts w' = alerts w) as Hall.
    { induction sites as [|[name url] sites IH]; intros w Hnd Hempty.
      - simpl. eauto.
      - rewrite fmap_cons in Hnd. apply NoDup_cons in Hnd as [Hfresh Hnd].
        destruct (Hempty name) as (d & Hget & Hd); [rewrite fmap_cons; left |].
        destruct (Hone e w name url d Hget Hd (Hm url)) as (w1 & Hstep & Hal1).
        destruct (check_service_frame format_1f e name url w w1 Hstep) as (Hfr & _).
        destruct (IH w1 Hnd) as (w' & Hrun & Hal).
        { intros n Hn. destruct (Hempty n) as (dn & Hgn & Hdn);
            [rewrite fmap_cons; by right |].
          exists dn. split; [| done].
          destruct (Hfr n) as [-> _]; [| done].
          intros ->. by apply Hfresh. }
        exists w'. split; [| congruence].
        apply for_each_cons_Ok. eauto. }
    destruct (Hall SITES init_world SITES_names_NoDup) as (w' & Hrun & Hal); [| eauto].
    intros n Hn. exists (Deque.new HISTORY_ENTRIES).
    split; [by apply init_history_lookup | done].
Qed.

(** C5, as the code has it. On an empty history the previous state is
    DOWN, a state that a probe can produce: it differs from the current
    state exactly when that one is OK or SLOW. *)
Theorem previous_state_of_empty_history d :
  Deque.items d = [] ->
  last_state d = DOWN
  /\ (forall cur, last_state d <> cur <-> cur = OK \/ cur = SLOW).
Proof.
  intros Hd. rewrite last_state_empty by done.
  split; [done |]. intros []; split; try done; intuition congruence.
Qed.

(** What the entry keeps. In a history of the program's capacity, the
    latest entry read right after the append of a sample is that
    sample's code and latency when the code, if present, is not 0 and the
    latency, if present, is neither 0 nor -1: present values come back as
    the same values and absent ones as absent. The marks of absence, a
    code 0 and a latency -1, come back absent. An empty history reads as
    absent. *)
Lemma latest_after_append d ts code latency :
  Deque.maxlen d = HISTORY_ENTRIES ->
  (code <> Some 0 -> latency <> Some 0 -> latency <> Some (-1) ->
   _last_status (Deque.append d (encode ts code latency)) = (code, latency))
  /\ (code = Some 0 ->
      (_last_status (Deque.append d (encode ts code latency))).1 = None)
  /\ (latency = Some (-1) ->
      (_last_status (Deque.append d (encode ts code latency))).2 = None)
  /\ (forall d0 : Deque.t (@sample Timestamp),
        Deque.items d0 = [] -> _last_status d0 = (None, None)).
Proof.
  intros Hmax.
  assert (0 < Deque.maxlen d)%nat as Hpos
      by (rewrite Hmax; apply HISTORY_ENTRIES_pos).
  split; [| split; [| split]].
  - by apply last_status_append_faithful.
  - intros ->. by rewrite last_status_append.
  - intros ->. by rewrite last_status_append.
  - apply last_status_empty.
Qed.

(** C6, at the input where the code fails it. A probe answered with
    code 200 in less than a millisecond has the present latency 0; line
    124 appends it with latency -1, since 0 is falsy in
    [latency or -1], and [_last_status] reads it back with an absent
    latency, not with the present value 0: the entry that [classify]
    called OK reads as DOWN. *)
Theorem last_status_loses_zero_latency (ts : Timestamp) :
  let d := Deque.append (Deque.new HISTORY_ENTRIES) (encode ts (Some 200) (Some 0)) in
  encode ts (Some 200) (Some 0) = (ts, 200, -1)
  /\ _last_status d = (Some 200, None)
  /\ _last_status d <> (Some 200, Some 0)
  /\ classify (Some 200) (Some 0) = OK
  /\ last_state d = DOWN.
Proof. by repeat split. Qed.

(** *** Saving and loading again *)

Lemma slice_last_fmap {A B} (f : A -> B) n (l : list A) :
  slice_last n (f <$> l) = f <$> slice_last n l.
Proof.
  destruct n as [|n]; [done |]. unfold slice_last.
  by rewrite length_fmap, fmap_drop.
Qed.

Lemma length_omap_le {A B} (f : A -> option B) (l : list A) :
  (length (omap f l) <= length l)%nat.
Proof.
  induction l as [|x l IH]; [done |].
  simpl. destruct (f x); simpl.
  - apply le_n_S, IH.
  - apply le_S, IH.
Qed.

Lemma omap_entry_sample_triples (l : list (@sample Timestamp)) :
  omap entry_sample ((fun '(ts, code, lat) => Triple ts code lat) <$> l) = l.
Proof.
  induction l as [|[[ts code] lat] l IH]; [done |].
  rewrite fmap_cons. simpl. f_equal. exact IH.
Qed.

Lemma save_history_well_formed h data :
  save_history h = JsonObject data ->
  well_formed data /\ NoDup (data.*1)
  /\ (forall name d, h !! name = Some d ->
        (name, (fun '(ts, code, lat) => Triple ts code lat) <$> Deque.items d) ∈ data)
  /\ (forall name, name ∈ data.*1 <-> name ∈ dom h).
Proof.
  unfold save_history. intros [= <-].
  assert (((fun '(n, d) =>
              (n, (fun '(ts, code, lat) => Triple ts code lat) <$> Deque.items d))
             <$> map_to_list h).*1 = (map_to_list h).*1) as Hkeys.
  { rewrite <- list_fmap_compose. apply list_fmap_ext. by intros _ [n d] _. }
  split; [| split; [| split]].
  - apply Forall_fmap, Forall_forall. intros [n d] _. simpl.
    apply Forall_fmap, Forall_forall. intros [[ts code] lat] _. simpl. eauto.
  - rewrite Hkeys. apply NoDup_fst_map_to_list.
  - intros name d Hget. apply list_elem_of_fmap.
    exists (name, d). split; [done | by apply elem_of_map_to_list].
  - intros name. rewrite Hkeys, elem_of_dom, list_elem_of_fmap. split.
    + intros ([n d] & -> & Hin%elem_of_map_to_list). eauto.
    + intros [d Hget]. exists (name, d). split; [done | by apply elem_of_map_to_list].
Qed.

Lemma get_or_new_init name :
  get_or_new (@init_history Timestamp) name = Deque.new HISTORY_ENTRIES.
Proof.
  unfold get_or_new.
  destruct (init_history !! name) as [d|] eqn:Hget; [| done].
  assert (name ∈ SITES.*1) as Hin.
  { apply (init_history_dom (Timestamp:=Timestamp)). by apply elem_of_dom_2 in Hget. }
  rewrite init_history_lookup in Hget by done. by injection Hget as <-.
Qed.

Lemma extend_new_short n (l : list (@sample Timestamp)) :
  (length l <= n)%nat -> Deque.extend (Deque.new n) l = Deque.mk n l.
Proof.
  intros Hle.
  pose proof (maxlen_extend l (Deque.new n)) as Hm.
  pose proof (items_extend_new n l) as Hi.
  replace (length l - n)%nat with 0%nat in Hi by lia.
  destruct (Deque.extend (Deque.new n) l) as [m its]. simpl in *. by subst.
Qed.

(** C7. After [save_history] and, in a fresh process, [load_history],
    every name of the saved mapping has the last [HISTORY_ENTRIES]
    samples of its saved sequence, in order: the whole sequence when it
    was within the capacity; a mapping that the program can hold comes
    back as it was; and any state file of the on-disk shape is loaded
    as the last [HISTORY_ENTRIES] items of each of its arrays. *)
Theorem persistence_roundtrip :
  (forall h name d,
      h !! name = Some d ->
      load_history (save_history h) init_history !! name
      = Some (Deque.mk HISTORY_ENTRIES
                (drop (length (Deque.items d) - HISTORY_ENTRIES)%nat (Deque.items d)))
      /\ ((length (Deque.items d) <= HISTORY_ENTRIES)%nat ->
          load_history (save_history h) init_history !! name
          = Some (Deque.mk HISTORY_ENTRIES (Deque.items d))))
  /\ (forall h,
         history_ok h ->
         (forall name, name ∈ SITES.*1 -> name ∈ dom h) ->
         load_history (save_history h) init_history = h)
  /\ (forall (data : list (string * list (@raw_entry Timestamp))) name entries,
         well_formed data -> NoDup (data.*1) -> (name, entries) ∈ data ->
         load_history (JsonObject data) init_history !! name
         = Some (Deque.mk HISTORY_ENTRIES
                   (omap entry_sample
                      (drop (length entries - HISTORY_ENTRIES)%nat entries)))).
Proof.
  assert (forall h name d,
             h !! name = Some d ->
             load_history (save_history h) init_history !! name
             = Some (Deque.mk HISTORY_ENTRIES
                       (slice_last HISTORY_ENTRIES (Deque.items d)))) as Hlookup.
  { intros h name d Hget.
    destruct (save_history h) as [| |data] eqn:Hsave; try done.
    destruct (save_history_well_formed h data Hsave) as (Hwf & Hnd & Hin & _).
    unfold load_history. rewrite (dict_of_distinct data Hnd).
    rewrite (load_items_lookup data init_history name _ Hwf Hnd (Hin name d Hget)).
    rewrite get_or_new_init, slice_last_fmap, omap_entry_sample_triples.
    rewrite extend_new_short; [done |].
    apply length_slice_last, HISTORY_ENTRIES_pos. }
  split; [| split].
  3:{ intros data name entries Hwf Hnd Hin. unfold load_history.
      rewrite (dict_of_distinct data Hnd).
      rewrite (load_items_lookup data init_history name entries Hwf Hnd Hin).
      rewrite get_or_new_init, extend_new_short; [done |].
      etrans; [apply length_omap_le |].
      apply length_slice_last, HISTORY_ENTRIES_pos. }
  - intros h name d Hget. rewrite (Hlookup h name d Hget). split; [done |].
    intros Hle. by rewrite slice_last_short.
  - intros h Hok Hsites. apply map_eq. intros name.
    destruct (h !! name) as [d|] eqn:Hget.
    + rewrite (Hlookup h name d Hget).
      destruct (Hok name d Hget) as [Hmax Hb]. unfold Deque.bounded in Hb.
      rewrite slice_last_short by lia.
      destruct d as [m its]. simpl in *. by subst.
    + destruct (save_history h) as [| |data] eqn:Hsave; try done.
      destruct (save_history_well_formed h data Hsave) as (_ & _ & _ & Hkeys).
      unfold load_history. rewrite load_items_other.
      * apply not_elem_of_dom. intros Hin%init_history_dom.
        apply Hsites in Hin. by apply not_elem_of_dom in Hget.
      * rewrite dict_of_keys, Hkeys. by apply not_elem_of_dom.
Qed.

(** C8, as the code has it. After a pass, [service_up] of a configured
    service is 1 when its state in this pass is OK and 0 otherwise;
    [service_latency_ms] is this pass's latency when there is one, and
    otherwise what it was before the pass: absent only if it was absent
    before. *)
Theorem gauges_after_tick e w w' name url :
  (name, url) ∈ SITES ->
  check_services format_1f e w = Ok w' ->
  g_up w' !! name
  = Some (if bool_decide (classify (measure e url).1 (measure e url).2 = OK)
          then 1 else 0)
  /\ g_latency w' !! name
     = match (measure e url).2 with
       | Some l => Some l
       | None => g_latency w !! name
       end.
Proof.
  intros Hin Hrun.
  destruct (check_services_iteration format_1f e w w' name url Hin Hrun)
    as (before & after & w1 & w2 & _ & _ & Hstep & _ & _ & _
        & _ & _ & Hl1 & _ & Hu2 & Hl2).
  destruct (history w1 !! name) as [entries|] eqn:Hget;
    [| by rewrite check_service_missing in Hstep].
  destruct (check_service_effect format_1f e name url w1 entries Hget)
    as (w2' & Hstep' & _ & Hup & Hlat & _).
  rewrite Hstep in Hstep'. injection Hstep' as <-.
  rewrite Hu2, Hl2, Hup, Hlat, lookup_insert_eq. split; [done |].
  destruct ((measure e url).2); [by rewrite lookup_insert_eq | done].
Qed.

Lemma check_services_no_TypeError e w :
  check_services format_1f e w <> Raise TypeError.
Proof.
  unfold check_services. generalize SITES. intros sites. revert w.
  induction sites as [|site sites IH]; intros w; [done |].
  simpl. pose proof (check_service_no_TypeError format_1f e site w) as Hs.
  destruct (check_service format_1f e site w) as [w1|err]; simpl.
  - apply IH.
  - congruence.
Qed.

(** C9. [classify] answers SLOW only for a present code and a present
    latency; the SLOW branch of [compose_message] raises [TypeError]
    exactly on an absent latency; on the state and values of one probe
    [compose_message] returns a message; neither an iteration nor a
    pass of [check_services] raises [TypeError]; and an iteration whose
    probe is SLOW hands to [compose_message] the present code and the
    present latency of that probe: the message it sends, if one is due,
    is the SLOW text with that latency and that code. *)
Theorem slow_message_is_well_defined :
  (forall code latency,
      classify code latency = SLOW -> exists c l, code = Some c /\ latency = Some l)
  /\ (forall now service code latency,
         compose_message format_1f now service SLOW code latency = Raise TypeError
         <-> latency = None)
  /\ (forall now service code latency,
         exists message,
           compose_message format_1f now service (classify code latency) code latency
           = Ok message)
  /\ (forall e site w, check_service format_1f e site w <> Raise TypeError)
  /\ (forall e w, check_services format_1f e w <> Raise TypeError)
  /\ (forall e w name url entries code latency,
         history w !! name = Some entries ->
         measure e url = (code, latency) ->
         classify code latency = SLOW ->
         exists c l message,
           code = Some c /\ latency = Some l
           /\ compose_message format_1f (strftime_now e name) name SLOW
                (Some c) (Some l) = Ok message
           /\ message
              = "‚ö†Ô∏è " +:+ name +:+ " is *slow* (" +:+ format_1f l
                +:+ "s, HTTP " +:+ str_int c +:+ ") ‚Äì " +:+ strftime_now e name
                +:+ String (Ascii.ascii_of_nat 10) "Hang tight or try off-peak üïí"
           /\ exists w',
               check_service format_1f e (name, url) w = Ok w'
               /\ alerts w'
                  = alerts w ++ (if alert_due (last_state entries) SLOW
                                 then [message] else [])).
Proof.
  split; [apply classify_slow_present |].
  split; [by intros now service code [l|] |].
  split; [apply compose_message_classify |].
  split; [apply check_service_no_TypeError |].
  split; [apply check_services_no_TypeError |].
  intros e w name url entries code latency Hget Hm Hslow.
  destruct (classify_slow_present code latency Hslow) as (c & l & -> & ->).
  exists c, l. eexists.
  split; [done |]. split; [done |].
  split; [reflexivity |]. split; [reflexivity |].
  unfold check_service, dict_get. rewrite Hget. simpl. rewrite Hm.
  change (if (c >=? 500) || (l >? SLOW_THRESHOLD_MS) then SLOW else OK)
    with (classify (Some c) (Some l)).
  rewrite Hslow.
  destruct (alert_due (last_state entries) SLOW); simpl.
  - eexists. split; [reflexivity | done].
  - eexists. split; [reflexivity | by rewrite app_nil_r].
Qed.


End Claims.

(** * The claims at concrete inputs *)

Lemma HELB_configured : ("HELB", "https://studentportal.helb.co.ke") ∈ SITES.
Proof. do 3 apply list_elem_of_further. apply list_elem_of_here. Defined.

Lemma history_capacity_fifo_witness :
  exists w' d,
    run_ticks format_tenths [probe_all (Some 200, Some 321)]
      (mkWorld (load_history file_with_stranger init_history) ∅ ∅ []) = Ok w'
    /\ history w' !! "HELB" = Some d
    /\ Deque.maxlen d = HISTORY_ENTRIES
    /\ (length (Deque.items d) <= HISTORY_ENTRIES)%nat.
Proof.
  eexists. eexists.
  split; [vm_compute; reflexivity |].
  split; [vm_compute; reflexivity |].
  destruct (history_capacity_fifo (Timestamp:=Z) format_tenths)
    as (_ & _ & _ & _ & _ & _ & Hprocess).
  eapply (Hprocess file_with_stranger [probe_all (Some 200, Some 321)] _ "HELB");
    vm_compute; reflexivity.
Defined.

Lemma alert_edge_triggered_witness :
  history (@init_world Z) !! "HELB" = Some (Deque.new HISTORY_ENTRIES)
  /\ exists w',
      check_service format_tenths (probe_all (Some 503, Some 100))
        ("HELB", "https://studentportal.helb.co.ke") init_world = Ok w'
      /\ exists message, alerts w' = alerts (@init_world Z) ++ [message].
Proof.
  split; [reflexivity |].
  destruct (alert_edge_triggered (Timestamp:=Z) format_tenths)
    as (_ & _ & _ & _ & _ & Hsend).
  destruct (Hsend (probe_all (Some 503, Some 100)) init_world "HELB"
              "https://studentportal.helb.co.ke" (Deque.new HISTORY_ENTRIES)
              eq_refl) as (w' & Hrun & Hal).
  exists w'. split; [exact Hrun | exact Hal].
Defined.

Lemma first_tick_down_is_silent_witness :
  exists w',
    check_services format_tenths (probe_all (None, None)) init_world = Ok w'
    /\ exists before after w1 w2,
        SITES = before ++ ("HELB", "https://studentportal.helb.co.ke") :: after
        /\ for_each (check_service format_tenths (probe_all (None, None)))
             before init_world = Ok w1
        /\ check_service format_tenths (probe_all (None, None))
             ("HELB", "https://studentportal.helb.co.ke") w1 = Ok w2
        /\ for_each (check_service format_tenths (probe_all (None, None)))
             after w2 = Ok w'
        /\ alerts w2 = alerts w1.
Proof.
  eexists. split; [vm_compute; reflexivity |].
  apply (proj1 (first_tick_down_is_silent (Timestamp:=Z) format_tenths)
           (probe_all (None, None)) init_world _ "HELB"
           "https://studentportal.helb.co.ke" (Deque.new HISTORY_ENTRIES)).
  - exact HELB_configured.
  - reflexivity.
  - reflexivity.
  - reflexivity.
  - vm_compute; reflexivity.
Defined.

(** C5, as stated, fails: on an empty history the previous state equals
    the current state DOWN. *)
Lemma previous_state_matches_down :
  ~ (forall (d : Deque.t (@sample Z)) (cur : State),
        Deque.items d = [] -> last_state d <> cur).
Proof.
  intros Hclaim.
  apply (Hclaim (Deque.new HISTORY_ENTRIES) DOWN); reflexivity.
Qed.

Lemma previous_state_of_empty_history_witness :
  Deque.items (@Deque.new (@sample Z) HISTORY_ENTRIES) = []
  /\ last_state (@Deque.new (@sample Z) HISTORY_ENTRIES) = DOWN
  /\ (forall cur,
        last_state (@Deque.new (@sample Z) HISTORY_ENTRIES) <> cur
        <-> cur = OK \/ cur = SLOW).
Proof.
  split; [reflexivity |].
  apply (previous_state_of_empty_history (Deque.new HISTORY_ENTRIES)).
  reflexivity.
Defined.

Lemma persistence_roundtrip_witness :
  history_with_one_sample !! "HELB" = Some (Deque.mk HISTORY_ENTRIES [(1700000000, 200, 321)])
  /\ load_history (save_history history_with_one_sample) init_history !! "HELB"
     = Some (Deque.mk HISTORY_ENTRIES [(1700000000, 200, 321)]).
Proof.
  split; [reflexivity |].
  destruct (proj1 (persistence_roundtrip (Timestamp:=Z)) history_with_one_sample
              "HELB" (Deque.mk HISTORY_ENTRIES [(1700000000, 200, 321)]) eq_refl)
    as [_ Hwhole].
  apply Hwhole. unfold HISTORY_ENTRIES. simpl. lia.
Defined.

(** C8, as stated, fails: a pass whose probe fails leaves the latency
    that an earlier pass exported. *)
Lemma stale_latency_gauge :
  ~ (forall (e : @env Z) w w' name url,
        (name, url) ∈ SITES ->
        check_services format_tenths e w = Ok w' ->
        (measure e url).2 = None ->
        g_latency w' !! name = None).
Proof.
  intros Hclaim.
  specialize (Hclaim (probe_all (None, None))
                (after_ticks [probe_all (Some 200, Some 321)])
                (after_ticks [probe_all (Some 200, Some 321); probe_all (None, None)])
                "HELB" "https://studentportal.helb.co.ke" HELB_configured).
  assert (g_latency (after_ticks [probe_all (Some 200, Some 321);
                                  probe_all (None, None)]) !! "HELB" = None) as Habs.
  { apply Hclaim; [vm_compute; reflexivity | reflexivity]. }
  vm_compute in Habs. discriminate Habs.
Qed.

Lemma gauges_after_tick_witness :
  exists w',
    check_services format_tenths (probe_all (Some 200, Some 321)) init_world = Ok w'
    /\ g_up w' !! "HELB" = Some 1
    /\ g_latency w' !! "HELB" = Some 321.
Proof.
  eexists. split; [vm_compute; reflexivity |].
  apply (gauges_after_tick format_tenths (probe_all (Some 200, Some 321)) init_world _
           "HELB" "https://studentportal.helb.co.ke" HELB_configured).
  vm_compute; reflexivity.
Defined.

Lemma slow_message_is_well_defined_witness :
  history (@init_world Z) !! "HELB" = Some (Deque.new HISTORY_ENTRIES)
  /\ classify (Some 503) (Some 100) = SLOW
  /\ exists c l message,
      Some 503 = Some c /\ Some 100 = Some l
      /\ compose_message format_tenths "Nov 14 22:13" "HELB" SLOW (Some c) (Some l)
         = Ok message
      /\ exists w',
          check_service format_tenths (probe_all (Some 503, Some 100))
            ("HELB", "https://studentportal.helb.co.ke") init_world = Ok w'
          /\ alerts w' = alerts (@init_world Z) ++ [message].
Proof.
  split; [reflexivity |]. split; [reflexivity |].
  destruct (slow_message_is_well_defined (Timestamp:=Z) format_tenths)
    as (_ & _ & _ & _ & _ & Hslow).
  destruct (Hslow (probe_all (Some 503, Some 100)) init_world "HELB"
              "https://studentportal.helb.co.ke" (Deque.new HISTORY_ENTRIES)
              (Some 503) (Some 100) eq_refl eq_refl eq_refl)
    as (c & l & message & Hc & Hl & Hmsg & _ & w' & Hrun & Hal).
  exists c, l, message.
  split; [exact Hc |]. split; [exact Hl |]. split; [exact Hmsg |].
  exists w'. split; [exact Hrun | exact Hal].
Defined.




(** Six passes of a fresh process whose probes give OK, DOWN, DOWN, DOWN,
    OK, DOWN to every service: each of the five services sends on the
    second and on the sixth pass, ten messages in all. *)
Example six_passes_send_two_messages_per_service :
  exists w',
    run_ticks format_tenths
      [ probe_all (Some 200, Some 321); probe_all (None, None);
        probe_all (None, None); probe_all (None, None);
        probe_all (Some 200, Some 321); probe_all (None, None) ]
      init_world = Ok w'
    /\ length (alerts w') = 10%nat
    /\ length (alerts (after_ticks [probe_all (Some 200, Some 321)])) = 0%nat
    /\ length (alerts (after_ticks [probe_all (Some 200, Some 321);
                                    probe_all (None, None)])) = 5%nat
    /\ length (alerts (after_ticks [probe_all (Some 200, Some 321);
                                    probe_all (None, None);
                                    probe_all (None, None);
                                    probe_all (None, None);
                                    probe_all (Some 200, Some 321)])) = 5%nat.
Proof. eexists. split; [vm_compute; reflexivity |]. by vm_compute. Qed.

(** A latency of 0 inside the loop: after a pass answered in under a
    millisecond, the pass of a failed probe finds DOWN as the
    previous state and sends nothing, although the state went from OK to
    DOWN. *)
Example zero_latency_hides_the_outage :
  classify (Some 200) (Some 0) = OK
  /\ classify None None = DOWN
  /\ alerts (after_ticks [probe_all (Some 200, Some 0); probe_all (None, None)]) = []
  /\ length (alerts (after_ticks [probe_all (Some 200, Some 1);
                                  probe_all (None, None)])) = 5%nat.
Proof. by vm_compute. Qed.

(** An item that does not unpack ends the load where it stands: the
    names that follow it in the file are not stored. *)
Example malformed_item_ends_the_load :
  load_history
    (JsonObject [ ("HELB", [Malformed]);
                  ("Huduma Centre", [Triple 1700000300 0 (-1)]) ])
    init_history
  = @init_history Z.
Proof. reflexivity. Qed.

(** [load_history] appends to a history that is not empty: the round
    trip is that of a restart, where [history] starts empty. *)
Example load_into_a_running_process_appends :
  load_history (save_history history_with_one_sample) history_with_one_sample
    !! "HELB"
  = Some (Deque.mk HISTORY_ENTRIES [(1700000000, 200, 321); (1700000000, 200, 321)]).
Proof. by vm_compute. Qed.

(** * Further properties of the monitor *)

Section PassFacts.
Context {Timestamp : Type}.
Variable format_1f : Z -> string.
Implicit Types (w : @world Timestamp) (e : @env Timestamp).
Implicit Types (d entries : Deque.t (@sample Timestamp)).
Implicit Types (h : gmap string (Deque.t (@sample Timestamp))).

(** One iteration, with the messages it sends. *)
Lemma check_service_sent e name url w entries :
  history w !! name = Some entries ->
  exists w',
    check_service format_1f e (name, url) w = Ok w'
    /\ history w'
       = <[name := Deque.append entries
                     (encode (time_time e name) (measure e url).1 (measure e url).2)]>
           (history w)
    /\ alerts w' = alerts w ++ sent_by format_1f e (name, url) entries.
Proof.
  intros Hget. unfold check_service, dict_get, sent_by. rewrite Hget. simpl.
  destruct (measure e url) as [code latency]. simpl.
  destruct (alert_due (last_state entries) (classify code latency)).
  - destruct (compose_message_classify format_1f (strftime_now e name) name
                code latency) as [message ->]. simpl. eauto.
  - eexists. split; [done |]. split; [done |]. simpl. by rewrite app_nil_r.
Qed.

Lemma sent_by_length e site entries :
  length (sent_by format_1f e site entries)
  = if alert_due (last_state entries)
         (classify (measure e site.2).1 (measure e site.2).2)
    then 1%nat else 0%nat.
Proof.
  unfold sent_by. destruct (measure e site.2) as [code latency]. simpl.
  destruct (alert_due (last_state entries) (classify code latency)); [| done].
  by destruct (compose_message_classify format_1f (strftime_now e site.1) site.1
                 code latency) as [message ->].
Qed.

(** A message composed for a state that is due is not the empty string
    of line 106. *)
Lemma sent_by_not_empty e site entries :
  Forall (fun message => message <> EmptyString) (sent_by format_1f e site entries).
Proof.
  unfold sent_by. destruct (measure e site.2) as [code latency].
  destruct (alert_due (last_state entries) (classify code latency)) eqn:Hdue;
    [| constructor].
  apply alert_due_spec in Hdue as [Hst _].
  destruct (classify code latency) eqn:Hcl.
  - by destruct Hst.
  - apply classify_slow_present in Hcl as (c & l & -> & ->). simpl.
    by repeat constructor.
  - simpl. by repeat constructor.
Qed.

(** What a whole pass does to the entries of one configured service. *)
Lemma check_services_site_effect e w w' name url entries :
  (name, url) ∈ SITES ->
  history w !! name = Some entries ->
  check_services format_1f e w = Ok w' ->
  history w' !! name
  = Some (Deque.append entries
            (encode (time_time e name) (measure e url).1 (measure e url).2))
  /\ g_up w' !! name
     = Some (if bool_decide (classify (measure e url).1 (measure e url).2 = OK)
             then 1 else 0)
  /\ g_latency w' !! name
     = match (measure e url).2 with
       | Some l => Some l
       | None => g_latency w !! name
       end.
Proof.
  intros Hin Hget Hrun.
  destruct (check_services_iteration format_1f e w w' name url Hin Hrun)
    as (before & after & w1 & w2 & _ & _ & Hstep & _ & _ & _
        & Hh1 & _ & Hl1 & Hh2 & Hu2 & Hl2).
  rewrite Hget in Hh1.
  destruct (check_service_effect format_1f e name url w1 entries Hh1)
    as (w2' & Hstep' & Hh & Hup & Hlat & _).
  rewrite Hstep in Hstep'. injection Hstep' as <-.
  rewrite Hh2, Hu2, Hl2, Hh, Hup, Hlat, !lookup_insert_eq.
  split; [done |]. split; [done |].
  destruct ((measure e url).2); [by rewrite lookup_insert_eq | done].
Qed.

(** The state read back from the entry just appended. *)
Lemma last_state_append d ts code latency :
  (0 < Deque.maxlen d)%nat ->
  state_kept code latency ->
  last_state (Deque.append d (encode ts code latency)) = classify code latency.
Proof.
  intros Hpos Hkept. unfold last_state. rewrite last_status_append by done.
  assert (forall c, c <> 0 -> (c =? 0) = false) as Hne0
      by (intros c Hc0; by apply Z.eqb_neq).
  destruct Hkept as [-> | [-> | (Hc & Hl0 & Hl1)]].
  - simpl. by destruct (py_or latency (-1) =? -1).
  - simpl. by rewrite !classify_absent_latency.
  - destruct code as [c|], latency as [l|]; simpl; try done.
    + assert (c <> 0) as Hc0 by congruence.
      assert (l <> 0) as Hl by congruence.
      assert (l <> -1) as Hl' by congruence.
      repeat (rewrite (Hne0 c Hc0) || rewrite (Hne0 l Hl)
              || rewrite (proj2 (Z.eqb_neq l (-1)) Hl')).
      done.
    + assert (c <> 0) as Hc0 by congruence.
      repeat rewrite (Hne0 c Hc0). done.
Qed.

(** Any other probe result is read back as DOWN, which is not the
    state it was given. *)
Lemma last_state_append_lost d ts code latency :
  (0 < Deque.maxlen d)%nat ->
  ~ state_kept code latency ->
  last_state (Deque.append d (encode ts code latency)) = DOWN
  /\ classify code latency <> DOWN.
Proof.
  intros Hpos Hnot. unfold last_state. rewrite last_status_append by done.
  destruct code as [c|]; [| destruct Hnot; by left].
  destruct latency as [l|]; [| destruct Hnot; right; by left].
  rewrite classify_present. split; [| by destruct (_ || _)].
  simpl.
  destruct (Z.eqb_spec c 0) as [->|Hc]; [done |].
  destruct (Z.eqb_spec l 0) as [->|Hl]; [by destruct (Z.eqb_spec c 0) |].
  destruct (Z.eqb_spec l (-1)) as [->|Hl']; [by destruct (Z.eqb_spec c 0) |].
  destruct Hnot. right. right. repeat split; congruence.
Qed.

End PassFacts.

Section PassTheorems.
Context {Timestamp : Type}.
Variable format_1f : Z -> string.
Implicit Types (w : @world Timestamp) (e : @env Timestamp).
Implicit Types (d entries : Deque.t (@sample Timestamp)).
Implicit Types (h : gmap string (Deque.t (@sample Timestamp))).


(** X2. In a history of the program's capacity, the state read back from
    the entry just appended is the state that [classify] gave the probe
    exactly when a value is absent or the code is not 0 and the latency
    is neither 0 nor -1; otherwise the entry reads as DOWN. *)
Theorem state_read_back d ts code latency :
  Deque.maxlen d = HISTORY_ENTRIES ->
  (last_state (Deque.append d (encode ts code latency)) = classify code latency
   <-> state_kept code latency)
  /\ (~ state_kept code latency ->
      last_state (Deque.append d (encode ts code latency)) = DOWN).
Proof.
  intros Hmax.
  assert (0 < Deque.maxlen d)%nat as Hpos
      by (rewrite Hmax; apply HISTORY_ENTRIES_pos).
  pose proof (last_state_append_lost d ts code latency Hpos) as Hlost.
  split; [split |].
  - intros Heq.
    destruct code as [c|]; [| by left].
    destruct latency as [l|]; [| right; by left].
    destruct (decide (c <> 0 /\ l <> 0 /\ l <> -1)) as [(Hc & Hl & Hl')|Hbad].
    + right. right. repeat split; congruence.
    + destruct Hlost as [Hd Hnd].
      { intros [? | [? | (Hc & Hl & Hl')]]; [done | done |].
        apply Hbad. repeat split; congruence. }
      rewrite Hd in Heq. by destruct Hnd.
  - by apply last_state_append.
  - intros Hnot. by apply Hlost.
Qed.

(** X3. A pass leaves, for each configured service, the deque it found
    with one entry appended, made of the pass's clock read, [code or 0]
    and [latency or -1]: after the old entries when there was room, in
    place of the oldest one when the deque was full. *)
Theorem pass_appends_one_entry e w w' name url entries :
  (name, url) ∈ SITES ->
  history w !! name = Some entries ->
  Deque.bounded entries ->
  check_services format_1f e w = Ok w' ->
  exists entries',
    history w' !! name = Some entries'
    /\ Deque.maxlen entries' = Deque.maxlen entries
    /\ length (Deque.items entries')
       = Nat.min (S (length (Deque.items entries))) (Deque.maxlen entries)
    /\ ((length (Deque.items entries) < Deque.maxlen entries)%nat ->
        Deque.items entries'
        = Deque.items entries
            ++ [(time_time e name, py_or (measure e url).1 0,
                 py_or (measure e url).2 (-1))])
    /\ ((0 < Deque.maxlen entries)%nat ->
        length (Deque.items entries) = Deque.maxlen entries ->
        Deque.items entries'
        = tail (Deque.items entries)
            ++ [(time_time e name, py_or (measure e url).1 0,
                 py_or (measure e url).2 (-1))]).
Proof.
  intros Hin Hget Hb Hrun.
  destruct (check_services_site_effect format_1f e w w' name url entries
              Hin Hget Hrun) as (Hh & _).
  eexists. split; [exact Hh |].
  split; [apply maxlen_append |].
  split; [| split].
  - rewrite items_append by done.
    rewrite length_drop, length_app. unfold Deque.bounded in Hb. cbn [length]. lia.
  - intros Hroom. by apply items_append_room.
  - intros Hpos Hfull. by apply items_append_full.
Qed.

Lemma pass_messages_cons e w site sites :
  pass_messages format_1f e w (site :: sites)
  = match history w !! site.1 with
    | Some entries => sent_by format_1f e site entries
    | None => []
    end ++ pass_messages format_1f e w sites.
Proof. reflexivity. Qed.

Lemma pass_messages_length e w sites :
  length (pass_messages format_1f e w sites)
  = length (List.filter (is_due e w) sites).
Proof.
  induction sites as [|site sites IH]; [done |].
  rewrite pass_messages_cons, length_app, IH. simpl. unfold is_due at 2.
  destruct (history w !! site.1) as [entries|]; [| done].
  rewrite sent_by_length.
  by destruct (alert_due _ _).
Qed.

Lemma pass_messages_not_empty e w sites :
  Forall (fun message => message <> EmptyString) (pass_messages format_1f e w sites).
Proof.
  induction sites as [|site sites IH]; [constructor |].
  rewrite pass_messages_cons. apply Forall_app. split; [| done].
  destruct (history w !! site.1); [apply sent_by_not_empty | constructor].
Qed.

(** The iterations of a pass read the entries that the pass started
    with, each its own. *)
Lemma for_each_sent e sites : forall w0 w w',
  NoDup (sites.*1) ->
  (forall n, n ∈ sites.*1 -> history w !! n = history w0 !! n) ->
  for_each (check_service format_1f e) sites w = Ok w' ->
  alerts w' = alerts w ++ pass_messages format_1f e w0 sites.
Proof.
  induction sites as [|[name url] sites IH]; intros w0 w w' Hnd Hsame Hrun.
  - injection Hrun as <-. simpl. by rewrite app_nil_r.
  - rewrite fmap_cons in Hnd. apply NoDup_cons in Hnd as [Hfresh Hnd].
    apply for_each_cons_Ok in Hrun as (w1 & Hstep & Hrun).
    destruct (history w !! name) as [entries|] eqn:Hget;
      [| by rewrite check_service_missing in Hstep].
    destruct (check_service_sent format_1f e name url w entries Hget)
      as (w1' & Hstep' & _ & Hal).
    rewrite Hstep in Hstep'. injection Hstep' as <-.
    destruct (check_service_frame format_1f e name url w w1 Hstep) as (Hfr & _).
    rewrite (IH w0 w1 w' Hnd); [| | done].
    + rewrite pass_messages_cons. simpl.
      rewrite <- (Hsame name) by (rewrite fmap_cons; left).
      by rewrite Hget, Hal, app_assoc.
    + intros n Hn. destruct (Hfr n) as [-> _].
      * intros ->. by apply Hfresh.
      * apply Hsame. rewrite fmap_cons. by right.
Qed.

(** X4. A pass hands to [send_alert] exactly one message for each
    configured service whose decision holds on the entries the pass
    started with, in the order of [SITES], after the messages sent
    before; at most five, and never the empty string. *)
Theorem pass_sends_the_due_messages e w w' :
  check_services format_1f e w = Ok w' ->
  alerts w' = alerts w ++ pass_messages format_1f e w SITES
  /\ length (pass_messages format_1f e w SITES)
     = length (List.filter (is_due e w) SITES)
  /\ (length (pass_messages format_1f e w SITES) <= 5)%nat
  /\ Forall (fun message => message <> EmptyString)
        (pass_messages format_1f e w SITES).
Proof.
  intros Hrun.
  split; [| split; [| split]].
  - by apply (for_each_sent e SITES w w w' SITES_names_NoDup).
  - apply pass_messages_length.
  - rewrite pass_messages_length.
    etrans; [apply List.filter_length_le | done].
  - apply pass_messages_not_empty.
Qed.

(** The only exception of the loop is the [KeyError] of a service that
    [history] does not have. *)
Lemma for_each_raise e sites : forall w err,
  for_each (check_service format_1f e) sites w = Raise err ->
  exists name, err = KeyError name /\ name ∈ sites.*1 /\ history w !! name = None.
Proof.
  induction sites as [|[name url] sites IH]; intros w err Hrun; [done |].
  simpl in Hrun.
  destruct (history w !! name) as [entries|] eqn:Hget.
  - destruct (check_service_effect format_1f e name url w entries Hget)
      as (w1 & Hstep & _).
    destruct (check_service_frame format_1f e name url w w1 Hstep) as (_ & _ & Hd).
    change (check_service format_1f e (name, url) w ≫= for_each (check_service format_1f e) sites
            = Raise err) in Hrun.
    rewrite Hstep in Hrun. simpl in Hrun.
    destruct (IH w1 err Hrun) as (k & -> & Hk & Hnone).
    exists k. split; [done |]. split; [rewrite fmap_cons; by right |].
    apply not_elem_of_dom. rewrite <- Hd. by apply not_elem_of_dom.
  - change (check_service format_1f e (name, url) w ≫= for_each (check_service format_1f e) sites
            = Raise err) in Hrun.
    rewrite check_service_missing in Hrun by done. simpl in Hrun.
    injection Hrun as <-. exists name. split; [done |].
    split; [rewrite fmap_cons; left | done].
Qed.

Lemma load_history_dom_mono file h : dom h ⊆ dom (load_history file h).
Proof.
  destruct file; unfold load_history; [done | done | apply load_items_dom_mono].
Qed.

Lemma run_ticks_total es : forall w,
  (forall name, name ∈ SITES.*1 -> name ∈ dom (history w)) ->
  exists w', run_ticks format_1f es w = Ok w'
             /\ dom (history w') = dom (history w).
Proof.
  unfold run_ticks.
  induction es as [|e es IH]; intros w Hdom; [simpl; eauto |].
  destruct (for_each_total format_1f e SITES w Hdom) as (w1 & Hstep & Hd).
  destruct (IH w1) as (w' & Hrun & Hd').
  { intros name Hn. rewrite Hd. by apply Hdom. }
  exists w'. split; [| congruence].
  apply for_each_cons_Ok. eauto.
Qed.

Lemma startup_has_sites file name :
  name ∈ SITES.*1 -> name ∈ dom (history (@startup Timestamp file)).
Proof.
  intros Hin. simpl. apply (load_history_dom_mono file init_history).
  by apply init_history_dom.
Qed.

(** A pass that returns found every configured service in [history]. *)
Lemma check_services_Ok_has_site e w w' name url :
  (name, url) ∈ SITES ->
  check_services format_1f e w = Ok w' ->
  is_Some (history w !! name).
Proof.
  intros Hin Hrun.
  destruct (check_services_iteration format_1f e w w' name url Hin Hrun)
    as (before & after & w1 & w2 & _ & _ & Hstep & _ & _ & _ & Hh1 & _).
  rewrite <- Hh1.
  destruct (history w1 !! name) eqn:Hget; [done |].
  by rewrite check_service_missing in Hstep.
Qed.

Lemma site_of_name name :
  name ∈ SITES.*1 -> exists url, (name, url) ∈ SITES.
Proof.
  intros ([n url] & -> & Hin)%list_elem_of_fmap. by exists url.
Qed.

(** X7. Between two passes of a process the decision is taken on the
    state of the pass before: when the first pass's probe of a service is
    one whose state survives its entry, the second pass sends a message
    for the service exactly when its state is SLOW or DOWN and differs
    from the state of the first pass. *)
Theorem alert_between_passes e1 e2 w wa wb name url :
  history_ok (history w) ->
  (name, url) ∈ SITES ->
  state_kept (measure e1 url).1 (measure e1 url).2 ->
  check_services format_1f e1 w = Ok wa ->
  check_services format_1f e2 wa = Ok wb ->
  exists entries,
    history wa !! name = Some entries
    /\ last_state entries = classify (measure e1 url).1 (measure e1 url).2
    /\ length (sent_by format_1f e2 (name, url) entries)
       = (if alert_due (classify (measure e1 url).1 (measure e1 url).2)
               (classify (measure e2 url).1 (measure e2 url).2)
          then 1%nat else 0%nat)
    /\ alerts wb = alerts wa ++ pass_messages format_1f e2 wa SITES.
Proof.
  intros Hok Hin Hkept Hrun1 Hrun2.
  destruct (check_services_Ok_has_site e1 w wa name url Hin Hrun1)
    as [entries0 Hget0].
  destruct (check_services_site_effect format_1f e1 w wa name url entries0
              Hin Hget0 Hrun1) as (Hget & _).
  destruct (Hok name entries0 Hget0) as [Hmax _].
  eexists. split; [exact Hget |].
  assert (last_state
            (Deque.append entries0
               (encode (time_time e1 name) (measure e1 url).1 (measure e1 url).2))
          = classify (measure e1 url).1 (measure e1 url).2) as Hstate.
  { apply last_state_append; [| done]. rewrite Hmax. apply HISTORY_ENTRIES_pos. }
  split; [done |]. split.
  - rewrite sent_by_length. simpl. by rewrite Hstate.
  - by apply (for_each_sent e2 SITES wa wa wb SITES_names_NoDup).
Qed.

Lemma check_service_gauges_ok e name url w w' :
  name ∈ SITES.*1 ->
  gauges_ok w ->
  check_service format_1f e (name, url) w = Ok w' ->
  gauges_ok w'.
Proof.
  intros Hin [Hup Hlat] Hrun.
  destruct (history w !! name) as [entries|] eqn:Hget;
    [| by rewrite check_service_missing in Hrun].
  destruct (check_service_effect format_1f e name url w entries Hget)
    as (w0 & Hrun0 & _ & Hu & Hl & _).
  rewrite Hrun in Hrun0. injection Hrun0 as <-.
  split.
  - intros k v. rewrite Hu. destruct (decide (k = name)) as [->|Hne].
    + rewrite lookup_insert_eq. intros [= <-]. split; [done |].
      destruct (bool_decide _); eauto.
    + rewrite lookup_insert_ne by done. apply Hup.
  - intros k l. rewrite Hl, Hu. destruct (decide (k = name)) as [->|Hne].
    + intros _. split; [done |]. by rewrite lookup_insert_eq.
    + rewrite lookup_insert_ne by done. intros Hk.
      apply (Hlat k l). destruct ((measure e url).2); [| done].
      by rewrite lookup_insert_ne in Hk.
Qed.

Lemma check_services_gauges_ok e w w' :
  gauges_ok w -> check_services format_1f e w = Ok w' -> gauges_ok w'.
Proof.
  unfold check_services.
  assert (forall sites w,
             (forall name, name ∈ sites.*1 -> name ∈ SITES.*1) ->
             gauges_ok w ->
             for_each (check_service format_1f e) sites w = Ok w' ->
             gauges_ok w') as Hgen.
  { induction sites as [|[name url] sites IH]; intros w0 Hsub Hok Hrun.
    - by injection Hrun as <-.
    - apply for_each_cons_Ok in Hrun as (w1 & Hstep & Hrun).
      apply (IH w1); [| | done].
      + intros n Hn. apply Hsub. rewrite fmap_cons. by right.
      + eapply check_service_gauges_ok; [| done | done].
        apply Hsub. rewrite fmap_cons. left. }
  by apply Hgen.
Qed.

(** X8. In a process the gauges hold configured services only,
    [service_up] is 0 or 1 and every service with a
    [service_latency_ms] has a [service_up]; and once a pass has run,
    every configured service has a [service_up]. *)
Theorem gauges_hold_configured_services (file : @state_file Timestamp) es w' :
  run_ticks format_1f es (startup file) = Ok w' ->
  gauges_ok w'
  /\ (es <> [] -> forall name, name ∈ SITES.*1 -> is_Some (g_up w' !! name)).
Proof.
  intros Hrun.
  assert (forall es w, gauges_ok w -> run_ticks format_1f es w = Ok w' -> gauges_ok w')
    as Hgen.
  { unfold run_ticks. induction es0 as [|e es0 IH]; intros w Hok Hr.
    - by injection Hr as <-.
    - apply for_each_cons_Ok in Hr as (w1 & Hstep & Hr).
      apply (IH w1); [| done]. by eapply check_services_gauges_ok. }
  split.
  - apply (Hgen es (startup file)); [| done].
    split; intros name v Hget; simpl in Hget; by rewrite lookup_empty in Hget.
  - intros Hne name Hn.
    destruct (exists_last Hne) as (es0 & e & ->).
    unfold run_ticks in Hrun.
    apply for_each_app in Hrun as (wm & _ & Hlast).
    apply for_each_cons_Ok in Hlast as (w1 & Hstep & Hnil).
    injection Hnil as <-.
    destruct (site_of_name name Hn) as [url Hin].
    destruct (check_services_Ok_has_site e wm w1 name url Hin Hstep)
      as [entries Hget].
    destruct (check_services_site_effect format_1f e wm w1 name url entries
                Hin Hget Hstep) as (_ & -> & _).
    done.
Qed.

(** X9. After a pass, a [service_up] of 1 means that the probe of this
    pass answered with a status below 500 within 4000 ms, and that
    [service_latency_ms] is the latency of that answer. *)
Theorem up_means_answered_in_time e w w' name url :
  (name, url) ∈ SITES ->
  check_services format_1f e w = Ok w' ->
  g_up w' !! name = Some 1 ->
  exists c l,
    measure e url = (Some c, Some l)
    /\ c < 500 /\ l <= 4000
    /\ g_latency w' !! name = Some l.
Proof.
  intros Hin Hrun Hup.
  destruct (check_services_Ok_has_site e w w' name url Hin Hrun) as [entries Hget].
  destruct (check_services_site_effect format_1f e w w' name url entries
              Hin Hget Hrun) as (_ & Hu & Hl).
  rewrite Hu in Hup.
  destruct (measure e url) as [[c|] [l|]]; cbn [fst snd] in *;
    rewrite ?classify_absent_latency, ?classify_absent_code in Hup;
    try (by injection Hup).
  exists c, l.
  pose proof (slow_test_spec c l) as Hs.
  rewrite classify_present in Hup.
  destruct ((c >=? 500) || (l >? 4000)); [by injection Hup |].
  assert (~ (c >= 500 \/ l > 4000)) as Hnor
      by (intros Hor; by apply Hs in Hor).
  repeat split; [lia | lia | done].
Qed.

Lemma row_le_total : Total row_le.
Proof. intros a b. unfold row_le. apply String.leb_total. Qed.

Lemma row_name_row_of name entries : row_name (row_of name entries) = name.
Proof. unfold row_of. by destruct (_last_status entries). Qed.

Lemma dashboard_names_Permutation h :
  row_name <$> dashboard h ≡ₚ (map_to_list h).*1.
Proof.
  unfold dashboard. rewrite merge_sort_Permutation, <- list_fmap_compose.
  apply Permutation_refl'. apply list_fmap_ext.
  intros _ [name entries] _. apply row_name_row_of.
Qed.

(** X10. The rows of the dashboard are the rows of the names of
    [history]: each name of [history] has one row, made of that name
    and of what [_last_status] reads in its entries, no row has another
    name, and the rows come in the order of their names. *)
Theorem dashboard_is_sorted h :
  Sorted row_le (dashboard h)
  /\ NoDup (row_name <$> dashboard h)
  /\ length (dashboard h) = size h
  /\ (forall name, name ∈ row_name <$> dashboard h <-> name ∈ dom h)
  /\ dashboard h
     ≡ₚ (fun '(name, entries) => row_of name entries) <$> map_to_list h
  /\ (forall row,
        row ∈ dashboard h <->
        exists name entries, h !! name = Some entries /\ row = row_of name entries).
Proof.
  split; [| split; [| split; [| split; [| split]]]].
  - apply (@Sorted_merge_sort _ row_le _ row_le_total).
  - rewrite dashboard_names_Permutation. apply NoDup_fst_map_to_list.
  - rewrite <- (length_fmap row_name), dashboard_names_Permutation.
    by rewrite length_fmap, length_map_to_list.
  - intros name. apply dashboard_names.
  - unfold dashboard. apply merge_sort_Permutation.
  - intros row. unfold dashboard.
    rewrite merge_sort_Permutation, list_elem_of_fmap. split.
    + intros ([name entries] & -> & Hin%elem_of_map_to_list). eauto.
    + intros (name & entries & Hget & ->). exists (name, entries).
      split; [done | by apply elem_of_map_to_list].
Qed.

(** [_last_status] never returns the marks of absence as values. *)
Lemma last_status_never_marks d :
  (_last_status d).1 <> Some 0 /\ (_last_status d).2 <> Some (-1).
Proof.
  unfold _last_status. destruct (Deque.truthy d); [| done].
  destruct (Deque.peek_right d) as [[[ts code] lat]|]; [| done]. simpl.
  destruct (Z.eqb_spec code 0), (Z.eqb_spec lat (-1)); split; congruence.
Qed.

Lemma dashboard_rows h row :
  row ∈ dashboard h <->
  exists name entries, h !! name = Some entries /\ row = row_of name entries.
Proof.
  unfold dashboard. rewrite merge_sort_Permutation, list_elem_of_fmap. split.
  - intros ([name entries] & -> & Hin%elem_of_map_to_list). eauto.
  - intros (name & entries & Hget & ->). exists (name, entries).
    split; [done | by apply elem_of_map_to_list].
Qed.

(** X11. Every row of the dashboard shows what [_last_status] reads in
    the history of its name and the state of those values; it never
    shows a code 0 or a latency -1, and its state is DOWN exactly when
    it shows no code or no latency, as it does for an empty history. *)
Theorem dashboard_rows_read_latest h row :
  row ∈ dashboard h ->
  exists entries,
    h !! row_name row = Some entries
    /\ (row_code row, row_latency row) = _last_status entries
    /\ row_state row = classify (row_code row) (row_latency row)
    /\ row_state row = last_state entries
    /\ row_code row <> Some 0
    /\ row_latency row <> Some (-1)
    /\ (row_state row = DOWN <-> row_code row = None \/ row_latency row = None)
    /\ (Deque.items entries = [] -> row_state row = DOWN).
Proof.
  intros (name & entries & Hget & ->)%dashboard_rows.
  rewrite row_name_row_of. exists entries. split; [done |].
  pose proof (last_status_never_marks entries) as [Hc Hl].
  pose proof (last_state_empty entries) as Hempty.
  unfold row_of, last_state in *.
  destruct (_last_status entries) as [code latency]. simpl in *.
  repeat split; try done.
  - destruct code, latency; try done; eauto.
    rewrite classify_present. by destruct (_ || _).
  - intros [-> | ->]; [done | apply classify_absent_latency].
Qed.

(** X12. After a pass the dashboard has a row for each configured
    service; when the probe of the pass is one whose state survives its
    entry, the row shows the state of that probe, and it shows OK
    exactly when [service_up] is 1; otherwise the row shows DOWN. *)
Theorem dashboard_after_pass e w w' name url :
  history_ok (history w) ->
  (name, url) ∈ SITES ->
  check_services format_1f e w = Ok w' ->
  exists row,
    row ∈ dashboard (history w')
    /\ row_name row = name
    /\ (state_kept (measure e url).1 (measure e url).2 ->
        row_state row = classify (measure e url).1 (measure e url).2
        /\ (row_state row = OK <-> g_up w' !! name = Some 1))
    /\ (~ state_kept (measure e url).1 (measure e url).2 ->
        row_state row = DOWN).
Proof.
  intros Hok Hin Hrun.
  destruct (check_services_Ok_has_site e w w' name url Hin Hrun) as [entries Hget].
  destruct (check_services_site_effect format_1f e w w' name url entries
              Hin Hget Hrun) as (Hh & Hu & _).
  destruct (Hok name entries Hget) as [Hmax _].
  assert (0 < Deque.maxlen entries)%nat as Hpos
      by (rewrite Hmax; apply HISTORY_ENTRIES_pos).
  set (code := (measure e url).1) in *.
  set (latency := (measure e url).2) in *.
  set (entries' := Deque.append entries (encode (time_time e name) code latency)) in *.
  assert (row_state (row_of name entries') = last_state entries') as Hrow.
  { unfold row_of, last_state. by destruct (_last_status entries'). }
  exists (row_of name entries').
  split; [apply dashboard_rows; eauto |].
  split; [apply row_name_row_of |].
  split.
  - intros Hkept. rewrite Hrow. unfold entries'.
    rewrite last_state_append by done. split; [done |].
    rewrite Hu. destruct (classify code latency); simpl; split; done.
  - intros Hnot. rewrite Hrow. unfold entries'.
    by apply last_state_append_lost.
Qed.

(** ** More on the persistence boundary *)

(** X13. [load_history] never removes a name from [history], leaves
    [history] as it was when the file is absent or unreadable, and
    leaves the entry of every name that the file does not have as it
    was, whether the load runs to its end or not. *)
Theorem load_leaves_the_rest (file : @state_file Timestamp) h :
  dom h ⊆ dom (load_history file h)
  /\ (file = NoFile \/ file = Unreadable -> load_history file h = h)
  /\ (forall data k,
         file = JsonObject data -> k ∉ data.*1 ->
         load_history file h !! k = h !! k).
Proof.
  split; [apply load_history_dom_mono |]. split.
  - by intros [-> | ->].
  - intros data k -> Hk. unfold load_history.
    apply load_items_other. by rewrite dict_of_keys.
Qed.

(** X14. For a state file that names nothing twice and whose arrays
    before it are well formed, an array with an item that does not
    unpack among its last [HISTORY_ENTRIES] ends the load: what follows
    it in the file is ignored and no name is added after the well-formed
    arrays; unless the name already had samples, [history] is what the
    well-formed arrays left. An array whose last [HISTORY_ENTRIES]
    items all unpack lets the load go on, whatever its older items
    are. *)
Theorem malformed_item_stops_the_load h
  (good : list (string * list (@raw_entry Timestamp))) name array rest :
  NoDup ((good ++ (name, array) :: rest).*1) ->
  well_formed good ->
  (Exists (fun x => entry_sample x = None) (slice_last HISTORY_ENTRIES array) ->
   load_history (JsonObject (good ++ (name, array) :: rest)) h
   = load_history (JsonObject (good ++ [(name, array)])) h
   /\ dom (load_history (JsonObject (good ++ (name, array) :: rest)) h)
      = dom (load_history (JsonObject good) h)
   /\ (aliased h name = false ->
       load_history (JsonObject (good ++ (name, array) :: rest)) h
       = load_history (JsonObject good) h))
  /\ (Forall (fun x => is_Some (entry_sample x)) (slice_last HISTORY_ENTRIES array) ->
      load_history (JsonObject (good ++ (name, array) :: rest)) h
      = load_history (JsonObject rest)
          (<[name := Deque.extend (get_or_new h name)
                       (omap entry_sample (slice_last HISTORY_ENTRIES array))]>
             (load_history (JsonObject good) h))).
Proof.
  intros Hnd Hwf.
  destruct (NoDup_names_app good rest name array Hnd) as (Hg & Hga & Hr & Hout).
  rewrite !load_history_JsonObject by done.
  assert (load_items h good !! name = h !! name) as Hsame
      by (by apply load_items_other).
  split.
  - intros Hex.
    destruct (load_items_stops h good name array rest Hwf Hex) as (H1 & H2 & H3).
    split; [done |]. split; [done |].
    intros Hal. apply H3. unfold aliased in *. by rewrite Hsame.
  - intros Hall. rewrite load_items_app by done.
    rewrite load_items_cons, load_entries_well_formed by done.
    unfold get_or_new. by rewrite Hsame.
Qed.


(** X16. [save_history] always writes a file of the on-disk shape: one
    array for each name of [history] and no other, each name once, every
    item a triple, the samples of the name in their order; and within
    the capacity when the history is. *)
Theorem save_history_writes_the_shape h :
  exists data,
    save_history h = JsonObject data
    /\ well_formed data
    /\ NoDup (data.*1)
    /\ (forall name, name ∈ data.*1 <-> name ∈ dom h)
    /\ (forall name array,
          (name, array) ∈ data <->
          exists d, h !! name = Some d
                    /\ array = (fun '(ts, code, lat) => Triple ts code lat)
                                   <$> Deque.items d)
    /\ (history_ok h ->
        Forall (fun item => (length item.2 <= HISTORY_ENTRIES)%nat) data).
Proof.
  destruct (save_history h) as [| |data] eqn:Hsave; try done.
  destruct (save_history_well_formed h data Hsave) as (Hwf & Hnd & Hin & Hkeys).
  assert (forall name array,
             (name, array) ∈ data <->
             exists d, h !! name = Some d
                       /\ array = (fun '(ts, code, lat) => Triple ts code lat)
                                      <$> Deque.items d) as Hitems.
  { intros name array. split.
    - unfold save_history in Hsave. injection Hsave as <-.
      intros ([n d] & [= -> ->] & Hel%elem_of_map_to_list)%list_elem_of_fmap.
      eauto.
    - intros (d & Hget & ->). by apply Hin. }
  exists data. repeat split; try done; try (by apply Hkeys); try (by apply Hitems).
  intros Hok. apply Forall_forall. intros [name array] Hel. simpl.
  apply Hitems in Hel as (d & Hget & ->).
  destruct (Hok name d Hget) as [Hmax Hb]. unfold Deque.bounded in Hb.
  rewrite length_fmap. by rewrite <- Hmax.
Qed.

(** After a save, a fresh process reads back each saved name. *)
Lemma load_save_lookup h name d :
  h !! name = Some d ->
  load_history (save_history h) init_history !! name
  = Some (Deque.mk HISTORY_ENTRIES (slice_last HISTORY_ENTRIES (Deque.items d))).
Proof.
  intros Hget.
  destruct (save_history h) as [| |data] eqn:Hsave; try done.
  destruct (save_history_well_formed h data Hsave) as (Hwf & Hnd & Hin & _).
  unfold load_history. rewrite (dict_of_distinct data Hnd).
  rewrite (load_items_lookup data init_history name _ Hwf Hnd (Hin name d Hget)).
  rewrite get_or_new_init, slice_last_fmap, omap_entry_sample_triples.
  rewrite extend_new_short; [done |].
  apply length_slice_last, HISTORY_ENTRIES_pos.
Qed.

Lemma load_save_fresh h :
  history_ok h ->
  (forall name, name ∈ SITES.*1 -> name ∈ dom h) ->
  load_history (save_history h) init_history = h.
Proof.
  intros Hok Hsites. apply map_eq. intros name.
  destruct (h !! name) as [d|] eqn:Hget.
  - rewrite (load_save_lookup h name d Hget).
    destruct (Hok name d Hget) as [Hmax Hb]. unfold Deque.bounded in Hb.
    rewrite slice_last_short by lia.
    destruct d as [m its]. simpl in *. by subst.
  - destruct (save_history h) as [| |data] eqn:Hsave; try done.
    destruct (save_history_well_formed h data Hsave) as (_ & _ & _ & Hkeys).
    unfold load_history. rewrite load_items_other.
    + apply not_elem_of_dom. intros Hin%init_history_dom.
      apply Hsites in Hin. by apply not_elem_of_dom in Hget.
    + rewrite dict_of_keys, Hkeys. by apply not_elem_of_dom.
Qed.

Lemma process_state file es w' :
  run_ticks format_1f es (startup file) = Ok w' ->
  history_ok (history w')
  /\ (forall name, name ∈ SITES.*1 -> name ∈ dom (history w')).
Proof.
  intros Hrun. split; [by apply (process_history_ok format_1f file es) |].
  destruct (run_ticks_total es (startup file) (startup_has_sites file))
    as (w'' & Hrun' & Hd).
  rewrite Hrun in Hrun'. injection Hrun' as <-.
  intros name Hn. rewrite Hd. by apply startup_has_sites.
Qed.

Lemma run_ticks_reachable es : forall w w',
  reachable format_1f w ->
  run_ticks format_1f es w = Ok w' ->
  reachable format_1f w'.
Proof.
  unfold run_ticks.
  induction es as [|e es IH]; intros w w' Hreach Hrun.
  - by injection Hrun as <-.
  - apply for_each_cons_Ok in Hrun as (w1 & Hstep & Hrun).
    apply (IH w1); [| done]. by apply (reach_pass format_1f e w).
Qed.

(** X6. A monitor that only ever reads state files it wrote itself
    never raises: started with no state file or one it cannot read,
    after any passes, and after any number of ends with [save_history]
    and new starts, [history] has every configured service, each within
    the capacity, and every further pass returns. *)
Theorem process_never_raises w :
  reachable format_1f w ->
  history_ok (history w)
  /\ (forall name, name ∈ SITES.*1 -> name ∈ dom (history w))
  /\ (forall es,
        exists w', run_ticks format_1f es w = Ok w' /\ reachable format_1f w').
Proof.
  intros Hreach.
  assert (history_ok (history w)
          /\ (forall name, name ∈ SITES.*1 -> name ∈ dom (history w)))
    as [Hok Hdom].
  { induction Hreach as [| |e w w' Hreach [Hok Hdom] Hrun|w Hreach [Hok Hdom]].
    - split; [apply init_history_ok | intros name Hn; by apply init_history_dom].
    - split; [apply init_history_ok | intros name Hn; by apply init_history_dom].
    - split; [by apply (check_services_ok format_1f e w) |].
      destruct (for_each_total format_1f e SITES w Hdom) as (w'' & Hrun' & Hd).
      unfold check_services in Hrun. rewrite Hrun in Hrun'. injection Hrun' as <-.
      intros name Hn. rewrite Hd. by apply Hdom.
    - assert (history (startup (shutdown w)) = history w) as ->
          by (simpl; unfold shutdown; by apply load_save_fresh).
      done. }
  split; [done |]. split; [done |].
  intros es. destruct (run_ticks_total es w Hdom) as (w' & Hrun & _).
  exists w'. split; [done |]. by apply (run_ticks_reachable es w).
Qed.

(** X17. A process that saves its history when it ends and is started
    again has, after [load_history], the history it had: no sample is
    lost, added or reordered by a restart. *)
Theorem restart_keeps_history (file : @state_file Timestamp) es w' :
  run_ticks format_1f es (startup file) = Ok w' ->
  history (startup (shutdown w')) = history w'.
Proof.
  intros Hrun. destruct (process_state file es w' Hrun) as [Hok Hsites].
  simpl. unfold shutdown. by apply load_save_fresh.
Qed.

Lemma pass_messages_same_history e w1 w2 sites :
  history w1 = history w2 ->
  pass_messages format_1f e w1 sites = pass_messages format_1f e w2 sites.
Proof. unfold pass_messages. by intros ->. Qed.

(** The history after a pass depends on the history before it only. *)
Lemma for_each_same_history e sites : forall w1 w2 w1' w2',
  history w1 = history w2 ->
  for_each (check_service format_1f e) sites w1 = Ok w1' ->
  for_each (check_service format_1f e) sites w2 = Ok w2' ->
  history w1' = history w2'.
Proof.
  induction sites as [|[name url] sites IH]; intros w1 w2 w1' w2' Heq Hr1 Hr2.
  - injection Hr1 as <-. by injection Hr2 as <-.
  - apply for_each_cons_Ok in Hr1 as (wa & Hs1 & Hr1).
    apply for_each_cons_Ok in Hr2 as (wb & Hs2 & Hr2).
    apply (IH wa wb); [| done | done].
    destruct (history w1 !! name) as [entries|] eqn:Hget;
      [| by rewrite check_service_missing in Hs1].
    destruct (check_service_effect format_1f e name url w1 entries Hget)
      as (wa' & Hs1' & Hha & _).
    rewrite Hs1 in Hs1'. injection Hs1' as <-.
    rewrite Heq in Hget.
    destruct (check_service_effect format_1f e name url w2 entries Hget)
      as (wb' & Hs2' & Hhb & _).
    rewrite Hs2 in Hs2'. injection Hs2' as <-.
    by rewrite Hha, Hhb, Heq.
Qed.

(** X18. The first pass after such a restart sends exactly the messages
    that the same pass would have sent in the process that ended, and
    leaves the same history: a restart neither repeats an alert for a
    service that stays SLOW or DOWN nor hides a change. *)
Theorem restart_sends_the_same (file : @state_file Timestamp) es e w wold wnew :
  run_ticks format_1f es (startup file) = Ok w ->
  check_services format_1f e w = Ok wold ->
  check_services format_1f e (startup (shutdown w)) = Ok wnew ->
  alerts wold = alerts w ++ alerts wnew
  /\ alerts wnew = pass_messages format_1f e w SITES
  /\ history wnew = history wold.
Proof.
  intros Hrun Hold Hnew.
  destruct (process_state file es w Hrun) as [Hok Hsites].
  assert (history (startup (shutdown w)) = history w) as Hsame
      by (simpl; unfold shutdown; by apply load_save_fresh).
  pose proof (for_each_sent e SITES w w wold SITES_names_NoDup
                ltac:(done) Hold) as Hsent_old.
  pose proof (for_each_sent e SITES (startup (shutdown w)) (startup (shutdown w))
                wnew SITES_names_NoDup ltac:(done) Hnew) as Hsent_new.
  rewrite (pass_messages_same_history e _ w SITES Hsame) in Hsent_new.
  simpl in Hsent_new.
  split; [by rewrite Hsent_old, Hsent_new |]. split; [done |].
  by apply (for_each_same_history e SITES (startup (shutdown w)) w wnew wold).
Qed.

(** The length of a history along the passes of a process. *)
Lemma run_ticks_length es : forall w w' name url d,
  history_ok (history w) ->
  (name, url) ∈ SITES ->
  history w !! name = Some d ->
  run_ticks format_1f es w = Ok w' ->
  exists d',
    history w' !! name = Some d'
    /\ length (Deque.items d')
       = Nat.min (length (Deque.items d) + length es) HISTORY_ENTRIES.
Proof.
  unfold run_ticks.
  induction es as [|e es IH]; intros w w' name url d Hok Hin Hget Hrun.
  - injection Hrun as <-. exists d. split; [done |].
    destruct (Hok name d Hget) as [Hmax Hb]. unfold Deque.bounded in Hb.
    cbn [length]. lia.
  - apply for_each_cons_Ok in Hrun as (w1 & Hstep & Hrun).
    destruct (check_services_site_effect format_1f e w w1 name url d Hin Hget Hstep)
      as (Hget1 & _).
    destruct (Hok name d Hget) as [Hmax Hb].
    destruct (IH w1 w' name url _ (check_services_ok format_1f e w w1 Hok Hstep)
                Hin Hget1 Hrun) as (d' & Hget' & Hlen).
    exists d'. split; [done |]. rewrite Hlen.
    rewrite items_append by done.
    rewrite length_drop, length_app. unfold Deque.bounded in Hb.
    cbn [length]. lia.
Qed.

(** X19. In a process started without a state file, after [k] passes the
    history of every configured service holds [k] entries, and from the
    288th pass on it holds [HISTORY_ENTRIES] of them. *)
Theorem history_fills_then_stays_full es w' name :
  name ∈ SITES.*1 ->
  run_ticks format_1f es (@startup Timestamp NoFile) = Ok w' ->
  exists d,
    history w' !! name = Some d
    /\ length (Deque.items d) = Nat.min (length es) HISTORY_ENTRIES.
Proof.
  intros Hn Hrun.
  destruct (site_of_name name Hn) as [url Hin].
  destruct (run_ticks_length es (startup NoFile) w' name url
              (Deque.new HISTORY_ENTRIES)) as (d & Hget & Hlen); try done.
  - apply init_history_ok.
  - by apply init_history_lookup.
  - by exists d.
Qed.

Lemma alert_due_same state : alert_due state state = false.
Proof. by destruct state. Qed.

(** X21. When every service is in the same state in two passes that
    follow each other, and the probes of the first are ones whose state
    survives its entry, the second pass sends nothing: a standing outage
    is announced once. *)
Theorem steady_state_sends_nothing e1 e2 w wa wb :
  history_ok (history w) ->
  (forall name url,
      (name, url) ∈ SITES ->
      state_kept (measure e1 url).1 (measure e1 url).2
      /\ classify (measure e2 url).1 (measure e2 url).2
         = classify (measure e1 url).1 (measure e1 url).2) ->
  check_services format_1f e1 w = Ok wa ->
  check_services format_1f e2 wa = Ok wb ->
  alerts wb = alerts wa.
Proof.
  intros Hok Hsame Hrun1 Hrun2.
  rewrite (for_each_sent e2 SITES wa wa wb SITES_names_NoDup ltac:(done) Hrun2).
  assert (forall sites,
             (forall site, site ∈ sites -> site ∈ SITES) ->
             pass_messages format_1f e2 wa sites = []) as Hnone.
  { induction sites as [|[name url] sites IH]; intros Hsub; [done |].
    rewrite pass_messages_cons, IH, app_nil_r
      by (intros site Hs; apply Hsub; by right).
    assert ((name, url) ∈ SITES) as Hin by (apply Hsub; left).
    destruct (check_services_Ok_has_site e1 w wa name url Hin Hrun1)
      as [entries0 Hget0].
    destruct (check_services_site_effect format_1f e1 w wa name url entries0
                Hin Hget0 Hrun1) as (Hget & _).
    destruct (Hok name entries0 Hget0) as [Hmax _].
    destruct (Hsame name url Hin) as [Hkept Hst].
    simpl. rewrite Hget. apply nil_length_inv.
    rewrite sent_by_length. simpl.
    rewrite last_state_append, Hst, alert_due_same; [done | | done].
    rewrite Hmax. apply HISTORY_ENTRIES_pos. }
  by rewrite Hnone, app_nil_r.
Qed.


End PassTheorems.

Section DequeTheorems.
Context {A : Type}.

(** X20. Appending to a deque within its bound leaves the last [maxlen]
    items of the old items followed by the new ones; once as many items
    as the capacity have been appended, nothing of the old items is
    left. *)
Theorem deque_keeps_the_latest (d : Deque.t A) (xs : list A) :
  Deque.bounded d ->
  Deque.items (Deque.extend d xs)
  = drop (length (Deque.items d ++ xs) - Deque.maxlen d)%nat (Deque.items d ++ xs)
  /\ Deque.maxlen (Deque.extend d xs) = Deque.maxlen d
  /\ Deque.bounded (Deque.extend d xs)
  /\ ((Deque.maxlen d <= length xs)%nat ->
      Deque.items (Deque.extend d xs) = drop (length xs - Deque.maxlen d)%nat xs).
Proof.
  intros Hb.
  split; [by apply items_extend |].
  split; [apply maxlen_extend |].
  split; [by apply extend_bounded |].
  intros Hlen. rewrite items_extend by done.
  rewrite length_app.
  replace (length (Deque.items d) + length xs - Deque.maxlen d)%nat
    with (length (Deque.items d) + (length xs - Deque.maxlen d))%nat by lia.
  by rewrite drop_app_add.
Qed.

End DequeTheorems.

(** * The further properties at concrete inputs *)

Lemma first_pass :
  check_services format_tenths pass_ok init_world = Ok (after_ticks [pass_ok]).
Proof. vm_compute. reflexivity. Qed.

Lemma second_pass :
  check_services format_tenths pass_down (after_ticks [pass_ok])
  = Ok (after_ticks [pass_ok; pass_down]).
Proof. vm_compute. reflexivity. Qed.

Lemma one_pass_process :
  run_ticks format_tenths [pass_ok] (startup NoFile) = Ok (after_ticks [pass_ok]).
Proof. vm_compute. reflexivity. Qed.

Lemma pass_ok_state_kept url :
  state_kept (measure pass_ok url).1 (measure pass_ok url).2.
Proof. right. right. by repeat split. Defined.

Lemma state_read_back_witness :
  Deque.maxlen (@Deque.new (@sample Z) HISTORY_ENTRIES) = HISTORY_ENTRIES
  /\ ~ state_kept (Some 200) (Some 0)
  /\ last_state (Deque.append (Deque.new HISTORY_ENTRIES)
                   (encode 1700000000 (Some 200) (Some 0))) = DOWN.
Proof.
  assert (~ state_kept (Some 200) (Some 0)) as Hnot
      by (intros [? | [? | (? & ? & ?)]]; done).
  split; [reflexivity |]. split; [exact Hnot |].
  apply (proj2 (state_read_back (Timestamp:=Z) (Deque.new HISTORY_ENTRIES)
                  1700000000 (Some 200) (Some 0) eq_refl) Hnot).
Defined.

Lemma pass_appends_one_entry_witness :
  exists entries',
    history (after_ticks [pass_ok]) !! "HELB" = Some entries'
    /\ Deque.items entries' = [(1700000000, 200, 321)].
Proof.
  destruct (pass_appends_one_entry format_tenths pass_ok init_world
              (after_ticks [pass_ok]) "HELB" "https://studentportal.helb.co.ke"
              (Deque.new HISTORY_ENTRIES) HELB_configured eq_refl
              (new_bounded HISTORY_ENTRIES) first_pass)
    as (entries' & Hget & _ & _ & Hroom & _).
  exists entries'. split; [exact Hget |].
  apply Hroom. unfold HISTORY_ENTRIES. simpl. lia.
Defined.

Lemma pass_sends_the_due_messages_witness :
  alerts (after_ticks [pass_ok; pass_down])
  = alerts (after_ticks [pass_ok])
      ++ pass_messages format_tenths pass_down (after_ticks [pass_ok]) SITES.
Proof.
  apply (proj1 (pass_sends_the_due_messages format_tenths pass_down
                  (after_ticks [pass_ok]) (after_ticks [pass_ok; pass_down])
                  second_pass)).
Defined.

Lemma alert_between_passes_witness :
  exists entries,
    history (after_ticks [pass_ok]) !! "HELB" = Some entries
    /\ last_state entries = OK
    /\ length (sent_by format_tenths pass_down
                 ("HELB", "https://studentportal.helb.co.ke") entries) = 1%nat.
Proof.
  destruct (alert_between_passes format_tenths pass_ok pass_down init_world
              (after_ticks [pass_ok]) (after_ticks [pass_ok; pass_down])
              "HELB" "https://studentportal.helb.co.ke"
              init_history_ok HELB_configured
              (pass_ok_state_kept "https://studentportal.helb.co.ke")
              first_pass second_pass)
    as (entries & Hget & Hstate & Hsent & _).
  exists entries. split; [exact Hget |]. split; [exact Hstate | exact Hsent].
Defined.

Lemma gauges_hold_configured_services_witness :
  gauges_ok (after_ticks [pass_ok])
  /\ is_Some (g_up (after_ticks [pass_ok]) !! "HELB").
Proof.
  destruct (gauges_hold_configured_services format_tenths NoFile [pass_ok]
              (after_ticks [pass_ok]) one_pass_process) as [Hok Hall].
  split; [exact Hok |].
  apply Hall; [discriminate |].
  do 3 apply list_elem_of_further. apply list_elem_of_here.
Defined.

Lemma up_means_answered_in_time_witness :
  g_up (after_ticks [pass_ok]) !! "HELB" = Some 1
  /\ exists c l,
      measure pass_ok "https://studentportal.helb.co.ke" = (Some c, Some l)
      /\ c < 500 /\ l <= 4000
      /\ g_latency (after_ticks [pass_ok]) !! "HELB" = Some l.
Proof.
  assert (g_up (after_ticks [pass_ok]) !! "HELB" = Some 1) as Hup
      by (vm_compute; reflexivity).
  split; [exact Hup |].
  apply (up_means_answered_in_time format_tenths pass_ok init_world
           (after_ticks [pass_ok]) "HELB" "https://studentportal.helb.co.ke"
           HELB_configured first_pass Hup).
Defined.

Lemma dashboard_rows_read_latest_witness :
  mkRow "HELB" (Some 200) (Some 321) OK ∈ dashboard history_with_one_sample
  /\ exists entries,
      history_with_one_sample !! "HELB" = Some entries
      /\ _last_status entries = (Some 200, Some 321).
Proof.
  assert (mkRow "HELB" (Some 200) (Some 321) OK ∈ dashboard history_with_one_sample)
    as Hin by (vm_compute; apply list_elem_of_here).
  split; [exact Hin |].
  destruct (dashboard_rows_read_latest history_with_one_sample _ Hin)
    as (entries & Hget & Hread & _).
  exists entries. split; [exact Hget | symmetry; exact Hread].
Defined.

Lemma dashboard_after_pass_witness :
  exists row,
    row ∈ dashboard (history (after_ticks [pass_ok]))
    /\ row_name row = "HELB"
    /\ row_state row = OK.
Proof.
  destruct (dashboard_after_pass format_tenths pass_ok init_world
              (after_ticks [pass_ok]) "HELB" "https://studentportal.helb.co.ke"
              init_history_ok HELB_configured first_pass)
    as (row & Hin & Hname & Hkept & _).
  exists row. split; [exact Hin |]. split; [exact Hname |].
  exact (proj1 (Hkept (pass_ok_state_kept "https://studentportal.helb.co.ke"))).
Defined.

Lemma load_leaves_the_rest_witness :
  ("KUCCPS" ∉ stranger_data.*1)
  /\ load_history file_with_stranger init_history !! "KUCCPS"
     = @init_history Z !! "KUCCPS".
Proof.
  assert ("KUCCPS" ∉ stranger_data.*1) as Hout
      by (apply (bool_decide_unpack _); by vm_compute).
  split; [exact Hout |].
  destruct (load_leaves_the_rest file_with_stranger init_history) as (_ & _ & Hrest).
  apply (Hrest stranger_data "KUCCPS" eq_refl Hout).
Defined.

Lemma malformed_item_stops_the_load_witness :
  NoDup (([("HELB", [@Triple Z 1700000000 200 321])]
            ++ ("KUCCPS", [Malformed])
               :: [("Huduma Centre", [Triple 1700000300 0 (-1)])]).*1)
  /\ well_formed [("HELB", [@Triple Z 1700000000 200 321])]
  /\ Exists (fun x => entry_sample x = None)
       (slice_last HISTORY_ENTRIES [@Malformed Z])
  /\ load_history
       (JsonObject ([("HELB", [Triple 1700000000 200 321])]
                      ++ ("KUCCPS", [Malformed])
                         :: [("Huduma Centre", [Triple 1700000300 0 (-1)])]))
       init_history
     = load_history
         (JsonObject ([("HELB", [Triple 1700000000 200 321])]
                        ++ [("KUCCPS", [Malformed])]))
         init_history.
Proof.
  assert (NoDup (([("HELB", [@Triple Z 1700000000 200 321])]
                    ++ ("KUCCPS", [Malformed])
                       :: [("Huduma Centre", [Triple 1700000300 0 (-1)])]).*1))
    as Hnd by (apply (bool_decide_unpack _); by vm_compute).
  assert (well_formed [("HELB", [@Triple Z 1700000000 200 321])]) as Hwf
      by (repeat constructor; simpl; eauto).
  assert (Exists (fun x => entry_sample x = None)
            (slice_last HISTORY_ENTRIES [@Malformed Z])) as Hex
      by (apply Exists_cons_hd; reflexivity).
  split; [exact Hnd |]. split; [exact Hwf |]. split; [exact Hex |].
  apply (proj1 (proj1 (malformed_item_stops_the_load init_history
                         [("HELB", [Triple 1700000000 200 321])] "KUCCPS" [Malformed]
                         [("Huduma Centre", [Triple 1700000300 0 (-1)])] Hnd Hwf)
                  Hex)).
Defined.


Lemma save_history_writes_the_shape_witness :
  history_ok (@init_history Z)
  /\ exists data,
      save_history (@init_history Z) = JsonObject data
      /\ Forall (fun item => (length item.2 <= HISTORY_ENTRIES)%nat) data.
Proof.
  split; [apply init_history_ok |].
  destruct (save_history_writes_the_shape (@init_history Z))
    as (data & Hsave & _ & _ & _ & _ & Hcap).
  exists data. split; [exact Hsave | exact (Hcap init_history_ok)].
Defined.

Lemma restart_keeps_history_witness :
  history (startup (shutdown (after_ticks [pass_ok])))
  = history (after_ticks [pass_ok]).
Proof.
  apply (restart_keeps_history format_tenths NoFile [pass_ok] _ one_pass_process).
Defined.

Lemma restart_sends_the_same_witness :
  exists wnew,
    check_services format_tenths pass_down (startup (shutdown (after_ticks [pass_ok])))
    = Ok wnew
    /\ alerts (after_ticks [pass_ok; pass_down])
       = alerts (after_ticks [pass_ok]) ++ alerts wnew.
Proof.
  assert (exists wnew,
             check_services format_tenths pass_down
               (startup (shutdown (after_ticks [pass_ok]))) = Ok wnew)
    as [wnew Hnew] by (eexists; vm_compute; reflexivity).
  exists wnew. split; [exact Hnew |].
  apply (proj1 (restart_sends_the_same format_tenths NoFile [pass_ok] pass_down
                  (after_ticks [pass_ok]) (after_ticks [pass_ok; pass_down]) wnew
                  one_pass_process second_pass Hnew)).
Defined.

Lemma history_fills_then_stays_full_witness :
  exists d,
    history (after_ticks [pass_ok]) !! "HELB" = Some d
    /\ length (Deque.items d) = Nat.min (length [pass_ok]) HISTORY_ENTRIES.
Proof.
  apply (history_fills_then_stays_full format_tenths [pass_ok] _ "HELB").
  - do 3 apply list_elem_of_further. apply list_elem_of_here.
  - exact one_pass_process.
Defined.

Lemma deque_keeps_the_latest_witness :
  Deque.bounded (Deque.mk 2 [1%nat; 2%nat])
  /\ Deque.items (Deque.extend (Deque.mk 2 [1%nat; 2%nat]) [3%nat; 4%nat; 5%nat])
     = [4%nat; 5%nat].
Proof.
  assert (Deque.bounded (Deque.mk 2 [1%nat; 2%nat])) as Hb
      by (unfold Deque.bounded; simpl; lia).
  split; [exact Hb |].
  destruct (deque_keeps_the_latest (Deque.mk 2 [1%nat; 2%nat])
              [3%nat; 4%nat; 5%nat] Hb) as (_ & _ & _ & Hfull).
  apply Hfull. simpl. lia.
Defined.

Lemma steady_state_sends_nothing_witness :
  alerts (after_ticks [pass_ok; pass_ok]) = alerts (after_ticks [pass_ok]).
Proof.
  apply (steady_state_sends_nothing format_tenths pass_ok pass_ok init_world
           (after_ticks [pass_ok]) (after_ticks [pass_ok; pass_ok])
           init_history_ok).
  - intros name url _. split; [apply pass_ok_state_kept | reflexivity].
  - exact first_pass.
  - vm_compute. reflexivity.
Defined.


Lemma process_never_raises_witness :
  reachable format_tenths (after_ticks [pass_ok])
  /\ exists w',
      run_ticks format_tenths [pass_down] (after_ticks [pass_ok]) = Ok w'
      /\ reachable format_tenths w'.
Proof.
  assert (reachable format_tenths (after_ticks [pass_ok])) as Hreach.
  { apply (reach_pass format_tenths pass_ok (startup NoFile)).
    - apply reach_fresh.
    - exact first_pass. }
  split; [exact Hreach |].
  destruct (process_never_raises format_tenths (after_ticks [pass_ok]) Hreach)
    as (_ & _ & Hruns).
  exact (Hruns [pass_down]).
Defined.

(** A name that the text of the object has twice is loaded once, with
    its last array: the array with the item that does not unpack is
    never met, and the load runs to its end. *)
Example repeated_name_takes_the_last_array :
  dict_of [ ("HELB", [@Malformed Z]);
            ("KUCCPS", [Triple 1700000300 200 150]);
            ("HELB", [Triple 1700000000 200 321]) ]
  = [ ("HELB", [Triple 1700000000 200 321]);
      ("KUCCPS", [Triple 1700000300 200 150]) ]
  /\ Deque.items
       <$> load_history
             (JsonObject [ ("HELB", [Malformed]);
                           ("KUCCPS", [Triple 1700000300 200 150]);
                           ("HELB", [Triple 1700000000 200 321]) ])
             init_history !! "KUCCPS"
     = Some [(1700000300, 200, 150)].
Proof. split; by vm_compute. Qed.
